(** * The usock transport of the PMIx client: connection establishment

    A shallow embedding of [src/mca/ptl/usock/ptl_usock.c]: the rendezvous
    lookup and the handshake of [connect_to_peer], the wire layout written by
    [send_connect_ack], the acknowledgment protocol of [recv_connect_ack]
    and the two submission entry points [send_recv] and [send_oneway].

    Conventions.
    - A C [char] is an [ascii]; a C string is a Rocq [string] (the bytes
      before the terminating NUL), a buffer is a [list ascii].
    - [size_t] values are [Z] with the wrap-around modulo 2^64 written at
      every assignment; [int] and [uint32_t] objects occupy 4 bytes and are
      laid out least significant byte first (the module copies them with
      [memcpy], without byte-order conversion).
    - Everything the file calls but does not define (the socket helpers of
      the ptl base, the security module, libevent, libc's environment and
      file-system calls) answers through a [world] record, and every such
      call with an effect is appended to the [calls] log of the state.
    - A computation is [None] exactly when the C program has no defined
      behaviour (a [memcpy] that leaves the allocated message). *)

From Stdlib Require Import ZArith List String Ascii Bool Lia.
From Stdlib Require Import DecimalString DecimalN.
Import ListNotations.
Open Scope string_scope.
Open Scope list_scope.
Open Scope Z_scope.

(** ** Status codes and build-time configuration

    [pmix_common.h], the configure output and the system headers are not
    part of the module: their constants are the fields of one record, and
    nothing below depends on a particular value. *)

Definition pmix_status_t := Z.

Record pmix_constants : Type := {
  PMIX_SUCCESS : pmix_status_t;
  PMIX_ERROR : pmix_status_t;
  PMIX_ERR_READY_FOR_HANDSHAKE : pmix_status_t;
  PMIX_ERR_UNREACH : pmix_status_t;
  PMIX_ERR_OUT_OF_RESOURCE : pmix_status_t;
  PMIX_ERR_SERVER_NOT_AVAIL : pmix_status_t;
  PMIX_ERR_NOT_SUPPORTED : pmix_status_t;
  PMIX_ERR_NOT_FOUND : pmix_status_t;
  PMIX_MAX_NSLEN : nat;
  PMIX_VERSION : string;
  PMIX_ENABLE_DSTORE : bool;
  PMIX_ENABLE_DEBUG : bool;
  ENOPROTOOPT : Z;
  sizeof_sun_path : nat
}.

(** The error codes this file returns on its own are different from
    [PMIX_SUCCESS]. *)
Definition errors_are_failures (K : pmix_constants) : Prop :=
  PMIX_ERROR K <> PMIX_SUCCESS K /\
  PMIX_ERR_UNREACH K <> PMIX_SUCCESS K /\
  PMIX_ERR_OUT_OF_RESOURCE K <> PMIX_SUCCESS K /\
  PMIX_ERR_SERVER_NOT_AVAIL K <> PMIX_SUCCESS K /\
  PMIX_ERR_NOT_SUPPORTED K <> PMIX_SUCCESS K /\
  PMIX_ERR_NOT_FOUND K <> PMIX_SUCCESS K.

Definition UINT32_MAX : Z := 2 ^ 32 - 1.
Definition ULLONG_MAX : Z := 2 ^ 64 - 1.
Definition AF_UNIX : Z := 1.
Definition EV_READ : Z := 2.
Definition EV_WRITE : Z := 4.
Definition EV_PERSIST : Z := 16.

Definition size_t (x : Z) : Z := x mod 2 ^ 64.
Definition sizeof_int : Z := 4.

(** [PMIX_SUCCESS != rc] *)
Definition status_ne (a b : pmix_status_t) : bool := negb (a =? b).

(** ** C strings and raw bytes *)

Definition NUL : ascii := Ascii.zero.

Definition chars (s : string) : list ascii := list_ascii_of_string s.

Definition strlen (s : string) : Z := Z.of_nat (String.length s).


(** [strncpy(dst, src, n)] into a zero-terminated array of [n + 1] chars:
    the first [n] characters of [src]. *)
Definition strncpy (src : string) (n : nat) : string :=
  String.substring 0 (Nat.min n (String.length src)) src.

(** [snprintf(dst, size, "%s", src)]: at most [size - 1] characters. *)
Definition snprintf_s (size : nat) (src : string) : string :=
  String.substring 0 (Nat.min (size - 1) (String.length src)) src.

(** The [n] bytes of an integer object, least significant first. *)
Fixpoint le_bytes (n : nat) (v : Z) : list ascii :=
  match n with
  | O => []
  | S n' => ascii_of_N (Z.to_N (v mod 256)) :: le_bytes n' (v / 256)
  end.


(** [memcpy(buf + off, src, length src)] inside an allocation of
    [length buf] bytes; outside it the behaviour is undefined. *)
Definition memcpy (buf : list ascii) (off : Z) (src : list ascii)
  : option (list ascii) :=
  if (0 <=? off) && (off + Z.of_nat (List.length src) <=? Z.of_nat (List.length buf))
  then Some (firstn (Z.to_nat off) buf ++ src
             ++ skipn (Z.to_nat off + List.length src) buf)
  else None.

(** ** [strtoull(s, NULL, 10)] in the C locale *)

Definition isspace (c : ascii) : bool :=
  let n := N_of_ascii c in
  (n =? 32)%N || ((9 <=? n)%N && (n <=? 13)%N).

Definition isdigit (c : ascii) : bool :=
  let n := N_of_ascii c in (48 <=? n)%N && (n <=? 57)%N.

Definition digit_value (c : ascii) : Z := Z.of_N (N_of_ascii c) - 48.

Fixpoint skip_spaces (s : string) : string :=
  match s with
  | String c r => if isspace c then skip_spaces r else s
  | EmptyString => s
  end.

(** The value of the longest prefix of decimal digits, and whether that
    prefix is non-empty. *)
Fixpoint digits_prefix (s : string) (acc : Z) (any : bool) : Z * bool :=
  match s with
  | String c r =>
      if isdigit c then digits_prefix r (10 * acc + digit_value c) true
      else (acc, any)
  | EmptyString => (acc, any)
  end.

(** An optional sign: whether it is a minus, and the text after it. *)
Definition strip_sign (s : string) : bool * string :=
  match s with
  | String "-" r => (true, r)
  | String "+" r => (false, r)
  | _ => (false, s)
  end.

Definition strtoull (s : string) : Z :=
  let '(neg, s2) := strip_sign (skip_spaces s) in
  let '(v, any) := digits_prefix s2 0 false in
  if negb any then 0
  else if ULLONG_MAX <? v then ULLONG_MAX
  else if neg then (2 ^ 64 - v) mod 2 ^ 64
  else v.

(** The conversion of the [unsigned long long] to the rank field.  The
    declaration of that field is not in this module; a rank travels as
    [sizeof(int)] bytes in the connect message, and the field is taken to
    be an unsigned 32-bit integer. *)
Definition rank_of_ull (v : Z) : Z := v mod 2 ^ 32.

(** Text that is an unsigned decimal integer: one digit or more and nothing
    else. *)
Definition is_uint_text (s : string) : bool :=
  negb (String.eqb s "") && forallb isdigit (chars s).

(** ** Wire format *)

(** Modelled from the spec: the declaration of [pmix_usock_hdr_t] is in the
    ptl base headers, not in this module.  The spec's [MessageHeader] is
    [{ peerIndex : int32; tag : uint32; payloadBytes : size }], fixed-width
    and sent as raw bytes. *)
Record pmix_usock_hdr_t : Type := {
  pindex : Z;
  tag : Z;
  nbytes : Z
}.

Definition sizeof_hdr : Z := 16.

Definition hdr_bytes (h : pmix_usock_hdr_t) : list ascii :=
  le_bytes 4 (pindex h) ++ le_bytes 4 (tag h) ++ le_bytes 8 (nbytes h).

(** The fields of the connect handshake, in the order of the wire. *)
Record connect_handshake : Type := {
  h_nspace : string;
  h_rank : Z;
  h_version : string;
  h_cred : string;
  h_sec : string;
  h_bfrops : string;
  h_flag : ascii;
  h_gds : string
}.

(** The fields of the payload, in the order of the wire: every string but
    the last followed by its NUL, the rank as 4 raw bytes, the flag as one
    byte.  Nothing is required after the last field. *)
Definition payload_fields (h : connect_handshake) : list ascii :=
  chars (h_nspace h) ++ [NUL]
  ++ le_bytes 4 (h_rank h)
  ++ chars (h_version h) ++ [NUL]
  ++ chars (h_cred h) ++ [NUL]
  ++ chars (h_sec h) ++ [NUL]
  ++ chars (h_bfrops h) ++ [NUL]
  ++ [h_flag h]
  ++ chars (h_gds h).





(** ** Program state *)

Record timeval : Type := { tv_sec : Z; tv_usec : Z }.

Definition sizeof_timeval : Z := 16.

Record sockaddr_un : Type := { sun_family : Z; sun_path : string }.

Inductive event_name : Type := Recv_event | Send_event.

Inductive handler : Type :=
| pmix_ptl_base_recv_handler
| pmix_ptl_base_send_handler.

(** What [pmix_event_assign] stores in an event. *)
Record pmix_event_t : Type := {
  ev_fd : Z;
  ev_events : Z;
  ev_callback : handler
}.

Record pmix_nspace_t : Type := { nspace : string }.

Record pmix_rank_info_t : Type := {
  nptr : option pmix_nspace_t;
  rank : Z
}.

Record pmix_peer_t : Type := {
  info : option pmix_rank_info_t;
  sd : Z;
  recv_event : option pmix_event_t;
  recv_ev_active : bool;
  send_event : option pmix_event_t;
  send_ev_active : bool
}.

Record pmix_proc_t : Type := { proc_nspace : string; proc_rank : Z }.

(** Calls that leave the module and act on a socket, on the security
    module or on the event loop. *)
Inductive call : Type :=
| Call_connect (addr : sockaddr_un)
| Call_create_cred (peer_sd : Z)
| Call_get_available_modules
| Call_send_blocking (fd : Z) (msg : list ascii)
| Call_getsockopt (fd : Z)
| Call_setsockopt (fd : Z) (tv : timeval) (len : Z)
| Call_recv_blocking (fd : Z) (size : Z)
| Call_client_handshake (peer_sd : Z) (fd : Z)
| Call_close (fd : Z)
| Call_set_nonblocking (fd : Z)
| Call_event_assign (ev : event_name) (e : pmix_event_t)
| Call_event_add (ev : event_name) (e : option pmix_event_t).

Definition peer_ptr := nat.
Definition buffer_ptr := nat.

Record pmix_ptl_sr_t : Type := {
  sr_peer : peer_ptr;
  sr_bfr : buffer_ptr;
  sr_cbfunc : nat;
  sr_cbdata : nat
}.

Record pmix_ptl_queue_t : Type := {
  q_peer : peer_ptr;
  q_buf : buffer_ptr;
  q_tag : Z
}.

(** A request handed to the event base by [PMIX_THREADSHIFT], with the
    function that will run it. *)
Inductive shifted : Type :=
| Shift_send_recv (ms : pmix_ptl_sr_t)
| Shift_send (q : pmix_ptl_queue_t).

Record state : Type := {
  connected : bool;                 (* pmix_globals.connected *)
  globals_pindex : Z;               (* pmix_globals.pindex *)
  myid : pmix_proc_t;               (* pmix_globals.myid *)
  myserver : pmix_peer_t;           (* *pmix_client_globals.myserver *)
  connection : sockaddr_un;         (* mca_ptl_usock_component.connection *)
  calls : list call;
  refcount : peer_ptr -> nat;       (* obj_reference_count of each peer *)
  event_queue : list shifted
}.

Definition set_connected (b : bool) (st : state) : state :=
  {| connected := b; globals_pindex := globals_pindex st; myid := myid st;
     myserver := myserver st; connection := connection st;
     calls := calls st; refcount := refcount st;
     event_queue := event_queue st |}.

Definition set_globals_pindex (i : Z) (st : state) : state :=
  {| connected := connected st; globals_pindex := i; myid := myid st;
     myserver := myserver st; connection := connection st;
     calls := calls st; refcount := refcount st;
     event_queue := event_queue st |}.

Definition set_myserver (p : pmix_peer_t) (st : state) : state :=
  {| connected := connected st; globals_pindex := globals_pindex st;
     myid := myid st; myserver := p; connection := connection st;
     calls := calls st; refcount := refcount st;
     event_queue := event_queue st |}.

Definition set_connection (a : sockaddr_un) (st : state) : state :=
  {| connected := connected st; globals_pindex := globals_pindex st;
     myid := myid st; myserver := myserver st; connection := a;
     calls := calls st; refcount := refcount st;
     event_queue := event_queue st |}.

Definition add_call (c : call) (st : state) : state :=
  {| connected := connected st; globals_pindex := globals_pindex st;
     myid := myid st; myserver := myserver st; connection := connection st;
     calls := calls st ++ [c]; refcount := refcount st;
     event_queue := event_queue st |}.

(** Modelled from the spec: the object macros [PMIX_NEW] and [PMIX_RETAIN]
    and the macro [PMIX_THREADSHIFT] are defined outside this module.  The
    spec: a submission retains the peer (one more reference), constructs
    the request and shifts it onto the I/O-owning context, which consumes
    the requests in the order of their submission. *)
Definition retain (pr : peer_ptr) (st : state) : state :=
  {| connected := connected st; globals_pindex := globals_pindex st;
     myid := myid st; myserver := myserver st; connection := connection st;
     calls := calls st;
     refcount := fun p => if Nat.eqb p pr then S (refcount st p)
                          else refcount st p;
     event_queue := event_queue st |}.

Definition threadshift (r : shifted) (st : state) : state :=
  {| connected := connected st; globals_pindex := globals_pindex st;
     myid := myid st; myserver := myserver st; connection := connection st;
     calls := calls st; refcount := refcount st;
     event_queue := event_queue st ++ [r] |}.

Definition set_info (i : option pmix_rank_info_t) (p : pmix_peer_t)
  : pmix_peer_t :=
  {| info := i; sd := sd p; recv_event := recv_event p;
     recv_ev_active := recv_ev_active p; send_event := send_event p;
     send_ev_active := send_ev_active p |}.

Definition set_sd (fd : Z) (p : pmix_peer_t) : pmix_peer_t :=
  {| info := info p; sd := fd; recv_event := recv_event p;
     recv_ev_active := recv_ev_active p; send_event := send_event p;
     send_ev_active := send_ev_active p |}.

Definition set_recv_event (e : pmix_event_t) (p : pmix_peer_t)
  : pmix_peer_t :=
  {| info := info p; sd := sd p; recv_event := Some e;
     recv_ev_active := recv_ev_active p; send_event := send_event p;
     send_ev_active := send_ev_active p |}.

Definition set_recv_ev_active (b : bool) (p : pmix_peer_t) : pmix_peer_t :=
  {| info := info p; sd := sd p; recv_event := recv_event p;
     recv_ev_active := b; send_event := send_event p;
     send_ev_active := send_ev_active p |}.

Definition set_send_event (e : pmix_event_t) (p : pmix_peer_t)
  : pmix_peer_t :=
  {| info := info p; sd := sd p; recv_event := recv_event p;
     recv_ev_active := recv_ev_active p; send_event := Some e;
     send_ev_active := send_ev_active p |}.

Definition set_send_ev_active (b : bool) (p : pmix_peer_t) : pmix_peer_t :=
  {| info := info p; sd := sd p; recv_event := recv_event p;
     recv_ev_active := recv_ev_active p; send_event := send_event p;
     send_ev_active := b |}.

(** ** The outside world

    One answer per call site of a function that is not defined in this
    module. *)

Inductive getsockopt_result : Type :=
| Getsockopt_ok (save : timeval) (sz : Z)
| Getsockopt_failed (errno : Z).

Record world : Type := {
  PMIX_PROC_IS_CLIENT : bool;
  getenv_PMIX_SERVER_URI : option string;
  pmix_argv_split : string -> list string;
  access_R_OK : string -> Z;
  pmix_ptl_base_connect : sockaddr_un -> pmix_status_t * Z;
  create_cred : pmix_status_t * option string * Z;
  pmix_psec_base_get_available_modules : string;
  malloc_succeeds : Z -> bool;
  pmix_ptl_base_send_blocking : Z -> list ascii -> pmix_status_t;
  getsockopt_SO_RCVTIMEO : Z -> getsockopt_result;
  setsockopt_timeout : Z;
  recv_blocking_status : pmix_status_t * Z;
  client_handshake : pmix_status_t;
  recv_blocking_pindex : pmix_status_t * Z;
  setsockopt_restore : Z
}.

(** ** Statements, early [return] and undefined behaviour *)

Inductive outcome (A : Type) : Type :=
| Next (a : A)
| Return (rc : pmix_status_t).
Arguments Next {A} a.
Arguments Return {A} rc.

Definition M (A : Type) : Type := state -> option (outcome A * state).

Definition ret {A : Type} (a : A) : M A := fun st => Some (Next a, st).

Definition bind {A B : Type} (m : M A) (k : A -> M B) : M B :=
  fun st =>
    match m st with
    | Some (Next a, st') => k a st'
    | Some (Return rc, st') => Some (Return rc, st')
    | None => None
    end.

(** [return rc;] *)
Definition return_ {A : Type} (rc : pmix_status_t) : M A :=
  fun st => Some (Return rc, st).

Definition get : M state := fun st => Some (Next st, st).

Definition modify (f : state -> state) : M unit :=
  fun st => Some (Next tt, f st).

Definition modify_myserver (f : pmix_peer_t -> pmix_peer_t) : M unit :=
  modify (fun st => set_myserver (f (myserver st)) st).

(** A call that leaves the module. *)
Definition extern (c : call) : M unit := modify (add_call c).

(** A step whose failure is undefined behaviour. *)
Definition defined {A : Type} (o : option A) : M A :=
  fun st => match o with Some a => Some (Next a, st) | None => None end.

Declare Scope stmt_scope.
Delimit Scope stmt_scope with stmt.
Notation "x <- m ;; k" := (bind m (fun x => k))
  (at level 61, m at next level, right associativity) : stmt_scope.
Notation "m ;; k" := (bind m (fun _ => k))
  (at level 61, right associativity) : stmt_scope.
Notation "'when' c 'then_return' rc ;; k" :=
  (if c then return_ rc else k)
  (at level 61, c at level 9, rc at level 9, right associativity)
  : stmt_scope.

(** A C function body: the status it returns and the state it leaves. *)
Definition body (m : M pmix_status_t) (st : state)
  : option (pmix_status_t * state) :=
  match m st with
  | Some (Next rc, st') => Some (rc, st')
  | Some (Return rc, st') => Some (rc, st')
  | None => None
  end.

(** Calling such a function from another body. *)
Definition invoke (f : state -> option (pmix_status_t * state))
  : M pmix_status_t :=
  fun st => match f st with
            | Some (rc, st') => Some (Next rc, st')
            | None => None
            end.

(** Modelled from the spec: the macro [CLOSE_THE_SOCKET] is defined in the
    ptl base headers, not in this module.  The spec: a handshake failure
    closes the just-opened socket descriptor before returning. *)
Definition CLOSE_THE_SOCKET (fd : Z) : M unit := extern (Call_close fd).

(** [pmix_event_assign(&myserver->ev, evbase, fd, events, cb, &myserver)]:
    libevent fills the event of the server peer; the call is logged. *)
Definition pmix_event_assign (ev : event_name) (fd events : Z) (cb : handler)
  : M unit :=
  let e := {| ev_fd := fd; ev_events := events; ev_callback := cb |} in
  (modify_myserver
     match ev with
     | Recv_event => set_recv_event e
     | Send_event => set_send_event e
     end ;;
   extern (Call_event_assign ev e))%stmt.

(** [pmix_event_add(&myserver->ev, 0)]: the event, as it was assigned, is
    handed to the event loop. *)
Definition pmix_event_add (ev : event_name) : M unit :=
  (st <- get ;;
   extern (Call_event_add ev
             match ev with
             | Recv_event => recv_event (myserver st)
             | Send_event => send_event (myserver st)
             end))%stmt.

Section Usock.

Variable K : pmix_constants.
Variable w : world.

Local Open Scope stmt_scope.

(** ** [send_connect_ack] *)

Definition send_connect_ack (fd : Z) : state -> option (pmix_status_t * state) :=
  body (
    (* setup the header *)
    let hdr_pindex := -1 in
    let hdr_tag := UINT32_MAX in
    st <- get ;;
    let my_nspace := proc_nspace (myid st) in
    (* reserve space for the nspace and rank info *)
    let sdsize := size_t (strlen my_nspace + 1 + sizeof_int) in
    (* get a credential, if the security system provides one *)
    extern (Call_create_cred (sd (myserver st))) ;;
    let '(rc, cred, len) := create_cred w in
    when (status_ne (PMIX_SUCCESS K) rc) then_return rc ;;
    (* we use the v2.0 bfrops "module" *)
    let bfrops := "v20" in
    (* determine whether dstore is enabled or not *)
    let gds := if PMIX_ENABLE_DSTORE K then "ds12" else "hash" in
    (* get our security modules *)
    extern Call_get_available_modules ;;
    let sec := pmix_psec_base_get_available_modules w in
    (* set the number of bytes to be read beyond the header *)
    let hdr_nbytes :=
      size_t (sdsize + strlen (PMIX_VERSION K) + 1 + len + 1
              + (strlen sec + 1)
              + (strlen bfrops + 1) + 1
              + (strlen gds + 1)) in
    let hdr := {| pindex := hdr_pindex; tag := hdr_tag;
                  nbytes := hdr_nbytes |} in
    (* create a space for our message *)
    let sdsize := size_t (sizeof_hdr + hdr_nbytes) in
    when (negb (malloc_succeeds w sdsize))
      then_return (PMIX_ERR_OUT_OF_RESOURCE K) ;;
    let msg := repeat NUL (Z.to_nat sdsize) in
    (* load the message *)
    let csize := 0 in
    msg <- defined (memcpy msg 0 (hdr_bytes hdr)) ;;
    let csize := size_t (csize + sizeof_hdr) in
    (* pass our nspace *)
    msg <- defined (memcpy msg csize (chars my_nspace)) ;;
    let csize := size_t (csize + (strlen my_nspace + 1)) in
    (* pass our rank *)
    msg <- defined (memcpy msg csize (le_bytes 4 (proc_rank (myid st)))) ;;
    let csize := size_t (csize + sizeof_int) in
    (* pass our version *)
    msg <- defined (memcpy msg csize (chars (PMIX_VERSION K))) ;;
    let csize := size_t (csize + (strlen (PMIX_VERSION K) + 1)) in
    (* pass our credential *)
    mc <- match cred with
          | Some c =>
              msg <- defined (memcpy msg csize (chars c)) ;;
              ret (msg, size_t (csize + (strlen c + 1)))
          | None => ret (msg, size_t (csize + 1))
          end ;;
    let '(msg, csize) := mc in
    (* pass our security modules *)
    msg <- defined (memcpy msg csize (chars sec)) ;;
    let csize := size_t (csize + (strlen sec + 1)) in
    (* pass our bfrops module *)
    msg <- defined (memcpy msg csize (chars bfrops)) ;;
    let csize := size_t (csize + (strlen bfrops + 1)) in
    (* add in our buffer type - fully described or not *)
    let flag := if PMIX_ENABLE_DEBUG K then 2 else 1 in
    msg <- defined (memcpy msg csize (le_bytes 1 flag)) ;;
    let csize := size_t (csize + 1) in
    (* tell them our gds module *)
    msg <- defined (memcpy msg csize (chars gds)) ;;
    extern (Call_send_blocking fd msg) ;;
    when (status_ne (PMIX_SUCCESS K) (pmix_ptl_base_send_blocking w fd msg))
      then_return (PMIX_ERR_UNREACH K) ;;
    ret (PMIX_SUCCESS K)).

(** ** [recv_connect_ack] *)

Definition recv_connect_ack (fd : Z) : state -> option (pmix_status_t * state) :=
  body (
    (* get the current timeout value so we can reset to it *)
    extern (Call_getsockopt fd) ;;
    so <- match getsockopt_SO_RCVTIMEO w fd with
          | Getsockopt_failed errno =>
              if errno =? ENOPROTOOPT K
              then ret (false, {| tv_sec := 0; tv_usec := 0 |}, sizeof_timeval)
              else return_ (PMIX_ERR_UNREACH K)
          | Getsockopt_ok save sz =>
              (* set a timeout on the blocking recv so we don't hang *)
              let tv := {| tv_sec := 2; tv_usec := 0 |} in
              extern (Call_setsockopt fd tv sizeof_timeval) ;;
              when (negb (setsockopt_timeout w =? 0))
                then_return (PMIX_ERR_UNREACH K) ;;
              ret (true, save, sz)
          end ;;
    let '(sockopt, save, sz) := so in
    (* receive the status reply *)
    extern (Call_recv_blocking fd sizeof_int) ;;
    let '(rc, reply) := recv_blocking_status w in
    when (status_ne (PMIX_SUCCESS K) rc) then_return rc ;;
    (* see if they want us to do the handshake *)
    (if reply =? PMIX_ERR_READY_FOR_HANDSHAKE K then
       st <- get ;;
       extern (Call_client_handshake (sd (myserver st)) fd) ;;
       let rc := client_handshake w in
       when (status_ne (PMIX_SUCCESS K) rc) then_return rc ;;
       ret tt
     else if status_ne (PMIX_SUCCESS K) reply then return_ reply
     else ret tt) ;;
    (* receive our index into the server's client array *)
    extern (Call_recv_blocking fd sizeof_int) ;;
    let '(rc, index) := recv_blocking_pindex w in
    (* the bytes received land in pmix_globals.pindex *)
    modify (set_globals_pindex index) ;;
    when (status_ne (PMIX_SUCCESS K) rc) then_return rc ;;
    (if sockopt then
       (* return the socket to normal *)
       extern (Call_setsockopt fd save sz) ;;
       when (negb (setsockopt_restore w =? 0))
         then_return (PMIX_ERR_UNREACH K) ;;
       ret tt
     else ret tt) ;;
    ret (PMIX_SUCCESS K)).

(** ** [connect_to_peer]

    The arguments [peer], [info] and [ninfo] of the C function are not
    used by it: the peer it connects is [pmix_client_globals.myserver]. *)

Definition connect_to_peer : state -> option (pmix_status_t * state) :=
  body (
    (* if we are not a client, there is nothing we can do *)
    when (negb (PMIX_PROC_IS_CLIENT w))
      then_return (PMIX_ERR_NOT_SUPPORTED K) ;;
    (* if we don't have a path to the daemon rendezvous point,
       then we need to return an error *)
    evar <- match getenv_PMIX_SERVER_URI w with
            | None => return_ (PMIX_ERR_SERVER_NOT_AVAIL K)
            | Some evar => ret evar
            end ;;
    let uri := pmix_argv_split w evar in
    when (negb (Nat.eqb (List.length uri) 3))
      then_return (PMIX_ERROR K) ;;
    let uri0 := nth 0 uri "" in
    let uri1 := nth 1 uri "" in
    let uri2 := nth 2 uri "" in
    (* set the server nspace *)
    (* if (NULL == myserver->info) myserver->info = PMIX_NEW(...) *)
    modify_myserver (fun p =>
      match info p with
      | None => set_info (Some {| nptr := None; rank := 0 |}) p
      | Some _ => p
      end) ;;
    (* if (NULL == myserver->info->nptr) ...->nptr = PMIX_NEW(...) *)
    modify_myserver (fun p =>
      set_info
        (option_map
           (fun i => match nptr i with
                     | None => {| nptr := Some {| nspace := "" |};
                                  rank := rank i |}
                     | Some _ => i
                     end)
           (info p)) p) ;;
    (* strncpy(myserver->info->nptr->nspace, uri[0], PMIX_MAX_NSLEN) *)
    modify_myserver (fun p =>
      set_info
        (option_map
           (fun i =>
              {| nptr := option_map
                           (fun _ => {| nspace :=
                                          strncpy uri0 (PMIX_MAX_NSLEN K) |})
                           (nptr i);
                 rank := rank i |})
           (info p)) p) ;;
    (* set the server rank *)
    modify_myserver (fun p =>
      set_info
        (option_map
           (fun i => {| nptr := nptr i;
                        rank := rank_of_ull (strtoull uri1) |})
           (info p)) p) ;;
    (* setup the path to the daemon rendezvous point *)
    modify (set_connection
              {| sun_family := AF_UNIX;
                 sun_path := snprintf_s (sizeof_sun_path K - 1) uri2 |}) ;;
    (* if the rendezvous file doesn't exist, that's an error *)
    when (negb (access_R_OK w uri2 =? 0))
      then_return (PMIX_ERR_NOT_FOUND K) ;;
    (* establish the connection *)
    st <- get ;;
    extern (Call_connect (connection st)) ;;
    let '(rc, fd) := pmix_ptl_base_connect w (connection st) in
    when (status_ne (PMIX_SUCCESS K) rc) then_return rc ;;
    modify_myserver (set_sd fd) ;;
    (* send our identity and any authentication credentials to the server *)
    rc <- invoke (send_connect_ack fd) ;;
    (if status_ne (PMIX_SUCCESS K) rc
     then CLOSE_THE_SOCKET fd ;; return_ rc
     else ret tt) ;;
    (* do whatever handshake is required *)
    rc <- invoke (recv_connect_ack fd) ;;
    (if status_ne (PMIX_SUCCESS K) rc
     then CLOSE_THE_SOCKET fd ;; return_ rc
     else ret tt) ;;
    (* mark the connection as made *)
    modify (set_connected true) ;;
    extern (Call_set_nonblocking fd) ;;
    (* setup recv event *)
    st <- get ;;
    pmix_event_assign Recv_event (sd (myserver st))
      (Z.lor EV_READ EV_PERSIST) pmix_ptl_base_recv_handler ;;
    pmix_event_add Recv_event ;;
    modify_myserver (set_recv_ev_active true) ;;
    (* setup send event *)
    st <- get ;;
    pmix_event_assign Send_event (sd (myserver st))
      (Z.lor EV_WRITE EV_PERSIST) pmix_ptl_base_send_handler ;;
    modify_myserver (set_send_ev_active false) ;;
    ret (PMIX_SUCCESS K)).

(** ** [send_recv] and [send_oneway]

    [PMIX_NEW] builds the request (the allocation is taken to succeed: the
    code does not test it), [PMIX_RETAIN] adds one to the peer's reference
    count and [PMIX_THREADSHIFT] hands the request to the event base with
    the base function that will post it. *)

Definition send_recv (peer : peer_ptr) (bfr : buffer_ptr) (cbfunc cbdata : nat)
  : state -> option (pmix_status_t * state) :=
  body (
    let pr := peer in
    modify (retain pr) ;;
    let ms := {| sr_peer := pr; sr_bfr := bfr; sr_cbfunc := cbfunc;
                 sr_cbdata := cbdata |} in
    modify (threadshift (Shift_send_recv ms)) ;;
    ret (PMIX_SUCCESS K)).

Definition send_oneway (peer : peer_ptr) (bfr : buffer_ptr) (tag : Z)
  : state -> option (pmix_status_t * state) :=
  body (
    let pr := peer in
    modify (retain pr) ;;
    let q := {| q_peer := pr; q_buf := bfr; q_tag := tag |} in
    modify (threadshift (Shift_send q)) ;;
    ret (PMIX_SUCCESS K)).

End Usock.

(** ** Concrete instances, to run the model *)

(** Modelled from the spec: [pmix_argv_split] is in the utility library,
    not in this module.  The spec: the descriptor is split on [:] into its
    non-empty fields. *)
Fixpoint argv_split_from (delim : ascii) (s : string) (field : list ascii)
  : list string :=
  let emit (f : list ascii) :=
    match f with
    | [] => []
    | _ => [string_of_list_ascii (rev f)]
    end in
  match s with
  | EmptyString => emit field
  | String c r =>
      if Ascii.eqb c delim then emit field ++ argv_split_from delim r []
      else argv_split_from delim r (c :: field)
  end.

Definition argv_split (s : string) : list string :=
  argv_split_from ":"%char s [].

(** One assignment of the constants, to run the model: status codes in the
    manner of [pmix_common.h] (0 for success, a negative number for each
    error), the sizes and the [errno] of a Linux build, the data store
    enabled.  Only the concrete runs below depend on these values. *)
Definition linux_constants : pmix_constants :=
  {| PMIX_SUCCESS := 0;
     PMIX_ERROR := -1;
     PMIX_ERR_READY_FOR_HANDSHAKE := -14;
     PMIX_ERR_UNREACH := -25;
     PMIX_ERR_OUT_OF_RESOURCE := -29;
     PMIX_ERR_SERVER_NOT_AVAIL := -45;
     PMIX_ERR_NOT_SUPPORTED := -47;
     PMIX_ERR_NOT_FOUND := -46;
     PMIX_MAX_NSLEN := 255;
     PMIX_VERSION := "2.1.0";
     PMIX_ENABLE_DSTORE := true;
     PMIX_ENABLE_DEBUG := false;
     ENOPROTOOPT := 92;
     sizeof_sun_path := 108 |}.

Definition empty_peer : pmix_peer_t :=
  {| info := None; sd := -1; recv_event := None; recv_ev_active := false;
     send_event := None; send_ev_active := false |}.

(** A client [job1:3] that has not connected yet. *)
Definition fresh_state : state :=
  {| connected := false; globals_pindex := -1;
     myid := {| proc_nspace := "job1"; proc_rank := 3 |};
     myserver := empty_peer;
     connection := {| sun_family := 0; sun_path := "" |};
     calls := []; refcount := fun _ => 1%nat; event_queue := [] |}.

(** A process of the given role with the given environment, and a daemon
    listening on [/tmp/pmix.sock] that answers the connect message with
    the status [reply] and then the index [index]; the connected socket is
    [fd]; the security module returns the credential [cred] with the
    length [len]. *)
Definition environment (client : bool) (descriptor : option string) (fd : Z)
    (cred : option string) (len : Z) (reply index : Z) : world :=
  {| PMIX_PROC_IS_CLIENT := client;
     getenv_PMIX_SERVER_URI := descriptor;
     pmix_argv_split := argv_split;
     access_R_OK := fun p => if String.eqb p "/tmp/pmix.sock" then 0 else -1;
     pmix_ptl_base_connect := fun _ => (0, fd);
     create_cred := (0, cred, len);
     pmix_psec_base_get_available_modules := "native";
     malloc_succeeds := fun _ => true;
     pmix_ptl_base_send_blocking := fun _ _ => 0;
     getsockopt_SO_RCVTIMEO :=
       fun _ => Getsockopt_ok {| tv_sec := 0; tv_usec := 0 |} sizeof_timeval;
     setsockopt_timeout := 0;
     recv_blocking_status := (0, reply);
     client_handshake := 0;
     recv_blocking_pindex := (0, index);
     setsockopt_restore := 0 |}.

(** A client with the rendezvous descriptor in its environment. *)
Definition daemon (descriptor : string) (fd : Z) (cred : option string)
    (len : Z) (reply index : Z) : world :=
  environment true (Some descriptor) fd cred len reply index.

(** The same world with another answer of [client_handshake]. *)
Definition with_client_handshake (rc : pmix_status_t) (w : world) : world :=
  {| PMIX_PROC_IS_CLIENT := PMIX_PROC_IS_CLIENT w;
     getenv_PMIX_SERVER_URI := getenv_PMIX_SERVER_URI w;
     pmix_argv_split := pmix_argv_split w;
     access_R_OK := access_R_OK w;
     pmix_ptl_base_connect := pmix_ptl_base_connect w;
     create_cred := create_cred w;
     pmix_psec_base_get_available_modules :=
       pmix_psec_base_get_available_modules w;
     malloc_succeeds := malloc_succeeds w;
     pmix_ptl_base_send_blocking := pmix_ptl_base_send_blocking w;
     getsockopt_SO_RCVTIMEO := getsockopt_SO_RCVTIMEO w;
     setsockopt_timeout := setsockopt_timeout w;
     recv_blocking_status := recv_blocking_status w;
     client_handshake := rc;
     recv_blocking_pindex := recv_blocking_pindex w;
     setsockopt_restore := setsockopt_restore w |}.

(** The same world on a transport whose [getsockopt] fails with [errno]. *)
Definition without_sockopt (errno : Z) (w : world) : world :=
  {| PMIX_PROC_IS_CLIENT := PMIX_PROC_IS_CLIENT w;
     getenv_PMIX_SERVER_URI := getenv_PMIX_SERVER_URI w;
     pmix_argv_split := pmix_argv_split w;
     access_R_OK := access_R_OK w;
     pmix_ptl_base_connect := pmix_ptl_base_connect w;
     create_cred := create_cred w;
     pmix_psec_base_get_available_modules :=
       pmix_psec_base_get_available_modules w;
     malloc_succeeds := malloc_succeeds w;
     pmix_ptl_base_send_blocking := pmix_ptl_base_send_blocking w;
     getsockopt_SO_RCVTIMEO := fun _ => Getsockopt_failed errno;
     setsockopt_timeout := setsockopt_timeout w;
     recv_blocking_status := recv_blocking_status w;
     client_handshake := client_handshake w;
     recv_blocking_pindex := recv_blocking_pindex w;
     setsockopt_restore := setsockopt_restore w |}.

(** A daemon that accepts the client, and one that refuses it. *)
Definition accepting : world := daemon "job1:0:/tmp/pmix.sock" 7 None 0 0 5.
Definition refusing : world :=
  daemon "job1:0:/tmp/pmix.sock" 7 None 0 (-25) 5.

(** The state after the client connected to the accepting daemon, and
    the state after the refusing daemon turned it down. *)
Definition established_state : state :=
  Eval vm_compute in
    match connect_to_peer linux_constants accepting fresh_state with
    | Some (_, st) => st
    | None => fresh_state
    end.


Definition refused_state : state :=
  Eval vm_compute in
    match connect_to_peer linux_constants refusing fresh_state with
    | Some (_, st) => st
    | None => fresh_state
    end.

(** What the module sends in the credential field: the credential, or the
    empty string when the security module gave none. *)
Definition cred_string (cred : option string) : string :=
  match cred with
  | Some c => c
  | None => ""
  end.

(** The handshake fields [send_connect_ack] assembles in state [st]. *)
Definition handshake_fields (K : pmix_constants) (w : world) (st : state)
  : connect_handshake :=
  {| h_nspace := proc_nspace (myid st);
     h_rank := proc_rank (myid st);
     h_version := PMIX_VERSION K;
     h_cred := cred_string (snd (fst (create_cred w)));
     h_sec := pmix_psec_base_get_available_modules w;
     h_bfrops := "v20";
     h_flag := ascii_of_N (if PMIX_ENABLE_DEBUG K then 2 else 1);
     h_gds := if PMIX_ENABLE_DSTORE K then "ds12" else "hash" |}.


(** ** Vocabulary of the statements *)

(** The calls of the two handshake functions: to the security module and
    on the connected socket, none of them a close, a connect or a call to
    the event loop. *)
Definition handshake_call (c : call) : bool :=
  match c with
  | Call_create_cred _ | Call_get_available_modules | Call_send_blocking _ _
  | Call_getsockopt _ | Call_setsockopt _ _ _ | Call_recv_blocking _ _
  | Call_client_handshake _ _ => true
  | _ => false
  end.

(** The descriptors closed by a sequence of calls, in order. *)
Definition closed_fds (cs : list call) : list Z :=
  flat_map (fun c => match c with Call_close fd => [fd] | _ => [] end) cs.

(** The descriptors on which a read event was added to the event loop. *)
Definition read_registrations (cs : list call) : list Z :=
  flat_map (fun c => match c with
                     | Call_event_add Recv_event (Some e) => [ev_fd e]
                     | _ => []
                     end) cs.

Definition connects (cs : list call) : list sockaddr_un :=
  flat_map (fun c => match c with Call_connect a => [a] | _ => [] end) cs.

Definition setsockopts (cs : list call) : list (Z * timeval * Z) :=
  flat_map (fun c => match c with
                     | Call_setsockopt fd tv len => [(fd, tv, len)]
                     | _ => []
                     end) cs.

(** The receive-timeout phase of [recv_connect_ack] let it go on to read
    the status, with the calls [pre]: either the socket option is not
    supported and only the query was made, or the 2-second timeout was
    set. *)
Definition timeout_phase_passed (K : pmix_constants) (w : world) (fd : Z)
    (pre : list call) : Prop :=
  (getsockopt_SO_RCVTIMEO w fd = Getsockopt_failed (ENOPROTOOPT K)
   /\ pre = [Call_getsockopt fd])
  \/ (exists save sz,
        getsockopt_SO_RCVTIMEO w fd = Getsockopt_ok save sz
        /\ setsockopt_timeout w = 0
        /\ pre = [Call_getsockopt fd;
                  Call_setsockopt fd {| tv_sec := 2; tv_usec := 0 |}
                    sizeof_timeval]).

(** The events added to the event loop, by name. *)
Definition event_adds (cs : list call) : list event_name :=
  flat_map (fun c => match c with Call_event_add ev _ => [ev] | _ => [] end)
    cs.

(** The state a handshake leaves: the calls [cs] were made and the
    bytes of the index, when some were received, are in
    [pmix_globals.pindex]. *)
Definition after_handshake (cs : list call) (index : option Z) (st : state)
  : state :=
  {| connected := connected st;
     globals_pindex := match index with
                       | Some i => i
                       | None => globals_pindex st
                       end;
     myid := myid st; myserver := myserver st; connection := connection st;
     calls := calls st ++ cs; refcount := refcount st;
     event_queue := event_queue st |}.

(** The state after the rendezvous descriptor [uri0:uri1:uri2] was
    recorded (server nspace, server rank, socket address). *)
Definition rendezvous (K : pmix_constants) (uri0 uri1 uri2 : string)
    (st : state) : state :=
  set_connection
    {| sun_family := AF_UNIX;
       sun_path := snprintf_s (sizeof_sun_path K - 1) uri2 |}
    (set_myserver
       (set_info
          (Some {| nptr := Some {| nspace := strncpy uri0 (PMIX_MAX_NSLEN K) |};
                   rank := rank_of_ull (strtoull uri1) |})
          (myserver st))
       st).

Definition read_event (fd : Z) : pmix_event_t :=
  {| ev_fd := fd; ev_events := Z.lor EV_READ EV_PERSIST;
     ev_callback := pmix_ptl_base_recv_handler |}.

Definition write_event (fd : Z) : pmix_event_t :=
  {| ev_fd := fd; ev_events := Z.lor EV_WRITE EV_PERSIST;
     ev_callback := pmix_ptl_base_send_handler |}.

(** The state after the connection was marked as made and the two events
    were set up on the socket [fd] of the server peer. *)
Definition registered (fd : Z) (st : state) : state :=
  {| connected := true;
     globals_pindex := globals_pindex st;
     myid := myid st;
     myserver :=
       {| info := info (myserver st); sd := sd (myserver st);
          recv_event := Some (read_event (sd (myserver st)));
          recv_ev_active := true;
          send_event := Some (write_event (sd (myserver st)));
          send_ev_active := false |};
     connection := connection st;
     calls := calls st
              ++ [Call_set_nonblocking fd;
                  Call_event_assign Recv_event (read_event (sd (myserver st)));
                  Call_event_add Recv_event
                    (Some (read_event (sd (myserver st))));
                  Call_event_assign Send_event
                    (write_event (sd (myserver st)))];
     refcount := refcount st;
     event_queue := event_queue st |}.

(** The state in which the handshake starts: the connect call was made
    and its descriptor stored in the server peer. *)
Definition opened (addr : sockaddr_un) (fd : Z) (st : state) : state :=
  set_myserver (set_sd fd (myserver st)) (add_call (Call_connect addr) st).

(** What [connect_to_peer] does once the socket [fd] is open. *)
Definition handshake (K : pmix_constants) (w : world) (fd : Z) (st : state)
  : option (pmix_status_t * state) :=
  match send_connect_ack K w fd st with
  | None => None
  | Some (rc, st1) =>
      if status_ne (PMIX_SUCCESS K) rc
      then Some (rc, add_call (Call_close fd) st1)
      else
        match recv_connect_ack K w fd st1 with
        | None => None
        | Some (rc, st2) =>
            if status_ne (PMIX_SUCCESS K) rc
            then Some (rc, add_call (Call_close fd) st2)
            else Some (PMIX_SUCCESS K, registered fd st2)
        end
  end.

(** The runs of [connect_to_peer] from [st] in the world [w]: the status
    returned and the state left, by the point at which the function
    returns. *)
Inductive connect_run (K : pmix_constants) (w : world) (st : state)
  : pmix_status_t -> state -> Prop :=
| Run_not_client :
    PMIX_PROC_IS_CLIENT w = false ->
    connect_run K w st (PMIX_ERR_NOT_SUPPORTED K) st
| Run_no_descriptor :
    PMIX_PROC_IS_CLIENT w = true ->
    getenv_PMIX_SERVER_URI w = None ->
    connect_run K w st (PMIX_ERR_SERVER_NOT_AVAIL K) st
| Run_malformed (evar : string) :
    PMIX_PROC_IS_CLIENT w = true ->
    getenv_PMIX_SERVER_URI w = Some evar ->
    List.length (pmix_argv_split w evar) <> 3%nat ->
    connect_run K w st (PMIX_ERROR K) st
| Run_not_found (evar uri0 uri1 uri2 : string) :
    PMIX_PROC_IS_CLIENT w = true ->
    getenv_PMIX_SERVER_URI w = Some evar ->
    pmix_argv_split w evar = [uri0; uri1; uri2] ->
    access_R_OK w uri2 <> 0 ->
    connect_run K w st (PMIX_ERR_NOT_FOUND K) (rendezvous K uri0 uri1 uri2 st)
| Run_unreachable (evar uri0 uri1 uri2 : string) (rc : pmix_status_t)
    (fd : Z) :
    let st1 := rendezvous K uri0 uri1 uri2 st in
    PMIX_PROC_IS_CLIENT w = true ->
    getenv_PMIX_SERVER_URI w = Some evar ->
    pmix_argv_split w evar = [uri0; uri1; uri2] ->
    access_R_OK w uri2 = 0 ->
    pmix_ptl_base_connect w (connection st1) = (rc, fd) ->
    rc <> PMIX_SUCCESS K ->
    connect_run K w st rc (add_call (Call_connect (connection st1)) st1)
| Run_handshake_failed (evar uri0 uri1 uri2 : string) (fd : Z)
    (rc : pmix_status_t) (cs : list call) (index : option Z) :
    let st1 := rendezvous K uri0 uri1 uri2 st in
    PMIX_PROC_IS_CLIENT w = true ->
    getenv_PMIX_SERVER_URI w = Some evar ->
    pmix_argv_split w evar = [uri0; uri1; uri2] ->
    access_R_OK w uri2 = 0 ->
    pmix_ptl_base_connect w (connection st1) = (PMIX_SUCCESS K, fd) ->
    rc <> PMIX_SUCCESS K ->
    forallb handshake_call cs = true ->
    hd_error cs = Some (Call_create_cred fd) ->
    connect_run K w st rc
      (after_handshake (cs ++ [Call_close fd]) index
         (opened (connection st1) fd st1))
| Run_connected (evar uri0 uri1 uri2 : string) (fd : Z)
    (cs : list call) (index : option Z) :
    let st1 := rendezvous K uri0 uri1 uri2 st in
    PMIX_PROC_IS_CLIENT w = true ->
    getenv_PMIX_SERVER_URI w = Some evar ->
    pmix_argv_split w evar = [uri0; uri1; uri2] ->
    access_R_OK w uri2 = 0 ->
    pmix_ptl_base_connect w (connection st1) = (PMIX_SUCCESS K, fd) ->
    forallb handshake_call cs = true ->
    hd_error cs = Some (Call_create_cred fd) ->
    connect_run K w st (PMIX_SUCCESS K)
      (registered fd
         (after_handshake cs index (opened (connection st1) fd st1))).

(** The same world with another answer of [pmix_argv_split]. *)
Definition with_fields (fields : list string) (w : world) : world :=
  {| PMIX_PROC_IS_CLIENT := PMIX_PROC_IS_CLIENT w;
     getenv_PMIX_SERVER_URI := getenv_PMIX_SERVER_URI w;
     pmix_argv_split := fun _ => fields;
     access_R_OK := access_R_OK w;
     pmix_ptl_base_connect := pmix_ptl_base_connect w;
     create_cred := create_cred w;
     pmix_psec_base_get_available_modules :=
       pmix_psec_base_get_available_modules w;
     malloc_succeeds := malloc_succeeds w;
     pmix_ptl_base_send_blocking := pmix_ptl_base_send_blocking w;
     getsockopt_SO_RCVTIMEO := getsockopt_SO_RCVTIMEO w;
     setsockopt_timeout := setsockopt_timeout w;
     recv_blocking_status := recv_blocking_status w;
     client_handshake := client_handshake w;
     recv_blocking_pindex := recv_blocking_pindex w;
     setsockopt_restore := setsockopt_restore w |}.

(** The rank recorded for the server, when there is one. *)
Definition server_rank (st : state) : option Z :=
  option_map rank (info (myserver st)).

(** Whether the text, after white space and one optional sign, starts
    with a decimal digit. *)
Definition starts_with_digit (s : string) : bool :=
  match snd (strip_sign (skip_spaces s)) with
  | String c _ => isdigit c
  | EmptyString => false
  end.


(** ** Further vocabulary *)

(** The bytes of the buffer that follow the last field: the length
    [create_cred] reports, plus one, less the string length of the
    credential. *)
Definition connect_padding (w : world) : Z :=
  let '(_, cred, len) := create_cred w in
  len + 1 - strlen (cred_string cred).

Definition connect_nbytes (K : pmix_constants) (w : world) (st : state) : Z :=
  Z.of_nat (List.length (payload_fields (handshake_fields K w st)))
  + connect_padding w.

Definition connect_message (K : pmix_constants) (w : world) (st : state)
  : list ascii :=
  hdr_bytes {| pindex := -1; tag := UINT32_MAX;
               nbytes := connect_nbytes K w st |}
  ++ payload_fields (handshake_fields K w st)
  ++ repeat NUL (Z.to_nat (connect_padding w)).

(** The messages handed to the blocking send, in order. *)
Definition sends (cs : list call) : list (Z * list ascii) :=
  flat_map (fun c => match c with
                     | Call_send_blocking fd msg => [(fd, msg)]
                     | _ => []
                     end) cs.

(** The blocking reads, in order: descriptor and number of bytes. *)
Definition recvs (cs : list call) : list (Z * Z) :=
  flat_map (fun c => match c with
                     | Call_recv_blocking fd size => [(fd, size)]
                     | _ => []
                     end) cs.

(** The calls of a run of [recv_connect_ack] that returns success, by what
    the world answers. *)
Definition timeout_calls (w : world) (fd : Z) : list call :=
  match getsockopt_SO_RCVTIMEO w fd with
  | Getsockopt_ok _ _ =>
      [Call_setsockopt fd {| tv_sec := 2; tv_usec := 0 |} sizeof_timeval]
  | Getsockopt_failed _ => []
  end.

Definition restore_calls (w : world) (fd : Z) : list call :=
  match getsockopt_SO_RCVTIMEO w fd with
  | Getsockopt_ok save sz => [Call_setsockopt fd save sz]
  | Getsockopt_failed _ => []
  end.

Definition shake_calls (K : pmix_constants) (w : world) (peer_sd fd : Z)
  : list call :=
  if snd (recv_blocking_status w) =? PMIX_ERR_READY_FOR_HANDSHAKE K
  then [Call_client_handshake peer_sd fd] else [].

Definition ack_calls (K : pmix_constants) (w : world) (peer_sd fd : Z)
  : list call :=
  Call_getsockopt fd :: timeout_calls w fd
  ++ Call_recv_blocking fd sizeof_int :: shake_calls K w peer_sd fd
  ++ Call_recv_blocking fd sizeof_int :: restore_calls w fd.

(** Every step of the acknowledgment goes well: the receive timeout is
    set and put back, or is not supported; the status is read and is
    success, or is the sentinel and the handshake succeeds; the index is
    read. *)
Definition acknowledged (K : pmix_constants) (w : world) (fd : Z) : bool :=
  match getsockopt_SO_RCVTIMEO w fd with
  | Getsockopt_ok _ _ =>
      (setsockopt_timeout w =? 0) && (setsockopt_restore w =? 0)
  | Getsockopt_failed errno => errno =? ENOPROTOOPT K
  end
  && (fst (recv_blocking_status w) =? PMIX_SUCCESS K)
  && (if snd (recv_blocking_status w) =? PMIX_ERR_READY_FOR_HANDSHAKE K
      then client_handshake w =? PMIX_SUCCESS K
      else snd (recv_blocking_status w) =? PMIX_SUCCESS K)
  && (fst (recv_blocking_pindex w) =? PMIX_SUCCESS K).

(** Whether every descriptor a call names is [fd]. *)
Definition on_descriptor (fd : Z) (c : call) : bool :=
  match c with
  | Call_connect _ | Call_get_available_modules => true
  | Call_create_cred peer_sd => peer_sd =? fd
  | Call_send_blocking fd' _ | Call_getsockopt fd' | Call_setsockopt fd' _ _
  | Call_recv_blocking fd' _ | Call_close fd' | Call_set_nonblocking fd' =>
      fd' =? fd
  | Call_client_handshake peer_sd fd' => (peer_sd =? fd) && (fd' =? fd)
  | Call_event_assign _ e => ev_fd e =? fd
  | Call_event_add _ (Some e) => ev_fd e =? fd
  | Call_event_add _ None => true
  end.

(** The same world with other answers of the security module, of the
    allocator, of the connect, of the blocking send and of the read of the
    index. *)
Definition with_credential (r : pmix_status_t * option string * Z)
    (w : world) : world :=
  {| PMIX_PROC_IS_CLIENT := PMIX_PROC_IS_CLIENT w;
     getenv_PMIX_SERVER_URI := getenv_PMIX_SERVER_URI w;
     pmix_argv_split := pmix_argv_split w;
     access_R_OK := access_R_OK w;
     pmix_ptl_base_connect := pmix_ptl_base_connect w;
     create_cred := r;
     pmix_psec_base_get_available_modules :=
       pmix_psec_base_get_available_modules w;
     malloc_succeeds := malloc_succeeds w;
     pmix_ptl_base_send_blocking := pmix_ptl_base_send_blocking w;
     getsockopt_SO_RCVTIMEO := getsockopt_SO_RCVTIMEO w;
     setsockopt_timeout := setsockopt_timeout w;
     recv_blocking_status := recv_blocking_status w;
     client_handshake := client_handshake w;
     recv_blocking_pindex := recv_blocking_pindex w;
     setsockopt_restore := setsockopt_restore w |}.

Definition with_malloc (f : Z -> bool) (w : world) : world :=
  {| PMIX_PROC_IS_CLIENT := PMIX_PROC_IS_CLIENT w;
     getenv_PMIX_SERVER_URI := getenv_PMIX_SERVER_URI w;
     pmix_argv_split := pmix_argv_split w;
     access_R_OK := access_R_OK w;
     pmix_ptl_base_connect := pmix_ptl_base_connect w;
     create_cred := create_cred w;
     pmix_psec_base_get_available_modules :=
       pmix_psec_base_get_available_modules w;
     malloc_succeeds := f;
     pmix_ptl_base_send_blocking := pmix_ptl_base_send_blocking w;
     getsockopt_SO_RCVTIMEO := getsockopt_SO_RCVTIMEO w;
     setsockopt_timeout := setsockopt_timeout w;
     recv_blocking_status := recv_blocking_status w;
     client_handshake := client_handshake w;
     recv_blocking_pindex := recv_blocking_pindex w;
     setsockopt_restore := setsockopt_restore w |}.

Definition with_connect (f : sockaddr_un -> pmix_status_t * Z) (w : world)
  : world :=
  {| PMIX_PROC_IS_CLIENT := PMIX_PROC_IS_CLIENT w;
     getenv_PMIX_SERVER_URI := getenv_PMIX_SERVER_URI w;
     pmix_argv_split := pmix_argv_split w;
     access_R_OK := access_R_OK w;
     pmix_ptl_base_connect := f;
     create_cred := create_cred w;
     pmix_psec_base_get_available_modules :=
       pmix_psec_base_get_available_modules w;
     malloc_succeeds := malloc_succeeds w;
     pmix_ptl_base_send_blocking := pmix_ptl_base_send_blocking w;
     getsockopt_SO_RCVTIMEO := getsockopt_SO_RCVTIMEO w;
     setsockopt_timeout := setsockopt_timeout w;
     recv_blocking_status := recv_blocking_status w;
     client_handshake := client_handshake w;
     recv_blocking_pindex := recv_blocking_pindex w;
     setsockopt_restore := setsockopt_restore w |}.

Definition with_index (r : pmix_status_t * Z) (w : world) : world :=
  {| PMIX_PROC_IS_CLIENT := PMIX_PROC_IS_CLIENT w;
     getenv_PMIX_SERVER_URI := getenv_PMIX_SERVER_URI w;
     pmix_argv_split := pmix_argv_split w;
     access_R_OK := access_R_OK w;
     pmix_ptl_base_connect := pmix_ptl_base_connect w;
     create_cred := create_cred w;
     pmix_psec_base_get_available_modules :=
       pmix_psec_base_get_available_modules w;
     malloc_succeeds := malloc_succeeds w;
     pmix_ptl_base_send_blocking := pmix_ptl_base_send_blocking w;
     getsockopt_SO_RCVTIMEO := getsockopt_SO_RCVTIMEO w;
     setsockopt_timeout := setsockopt_timeout w;
     recv_blocking_status := recv_blocking_status w;
     client_handshake := client_handshake w;
     recv_blocking_pindex := r;
     setsockopt_restore := setsockopt_restore w |}.

(** The nspace recorded for the server, when there is one. *)
Definition server_nspace (st : state) : option string :=
  match info (myserver st) with
  | Some i => option_map nspace (nptr i)
  | None => None
  end.

(** A submission to one of the two entry points of the module, with its
    arguments, and a sequence of submissions made one after the other. *)
Inductive submission : Type :=
| Submit_send_recv (peer : peer_ptr) (bfr : buffer_ptr) (cbfunc cbdata : nat)
| Submit_send_oneway (peer : peer_ptr) (bfr : buffer_ptr) (tag : Z).

Definition submit (K : pmix_constants) (s : submission)
  : state -> option (pmix_status_t * state) :=
  match s with
  | Submit_send_recv peer bfr cbfunc cbdata =>
      send_recv K peer bfr cbfunc cbdata
  | Submit_send_oneway peer bfr tag => send_oneway K peer bfr tag
  end.

Fixpoint submit_all (K : pmix_constants) (ss : list submission) (st : state)
  : option (list pmix_status_t * state) :=
  match ss with
  | [] => Some ([], st)
  | s :: ss' =>
      match submit K s st with
      | None => None
      | Some (rc, st1) =>
          match submit_all K ss' st1 with
          | None => None
          | Some (rcs, st2) => Some (rc :: rcs, st2)
          end
      end
  end.

Definition submitted_peer (s : submission) : peer_ptr :=
  match s with
  | Submit_send_recv peer _ _ _ | Submit_send_oneway peer _ _ => peer
  end.

(** The request that a submission hands to the event base. *)
Definition request_of (s : submission) : shifted :=
  match s with
  | Submit_send_recv peer bfr cbfunc cbdata =>
      Shift_send_recv {| sr_peer := peer; sr_bfr := bfr;
                         sr_cbfunc := cbfunc; sr_cbdata := cbdata |}
  | Submit_send_oneway peer bfr tag =>
      Shift_send {| q_peer := peer; q_buf := bfr; q_tag := tag |}
  end.

(** The decimal text of a number. *)
Definition decimal (n : N) : string :=
  DecimalString.NilEmpty.string_of_uint (N.to_uint n).

(** Text made of white space only, and text that does not go on with a
    decimal digit. *)
Definition all_spaces (s : string) : bool := forallb isspace (chars s).

Definition no_digit_first (s : string) : bool :=
  match s with
  | String c _ => negb (isdigit c)
  | EmptyString => true
  end.

(** The rank that the digits of the number [v] give, after a minus sign
    or not: [strtoull] stops at [ULLONG_MAX], negates in 64 bits, and the
    rank keeps 32 bits. *)
Definition rank_of_number (minus : bool) (v : Z) : Z :=
  if ULLONG_MAX <? v then UINT32_MAX
  else if minus then (- v) mod 2 ^ 32
  else v mod 2 ^ 32.

(** * Properties *)

(** ** Bytes and strings *)

Lemma length_chars (s : string) : List.length (chars s) = String.length s.
Proof.
  unfold chars. induction s as [|c s IH]; simpl; [reflexivity|].
  now rewrite IH.
Qed.

Lemma length_le_bytes (n : nat) (v : Z) : List.length (le_bytes n v) = n.
Proof.
  revert v. induction n as [|n IH]; intro v; simpl; [reflexivity|].
  now rewrite IH.
Qed.







(** ** Writing into a zeroed buffer *)

Lemma skipn_repeat_NUL (n k : nat) :
  skipn n (repeat NUL k) = repeat NUL (k - n).
Proof.
  revert k. induction n as [|n IH]; intro k.
  - now rewrite Nat.sub_0_r.
  - destruct k as [|k]; [reflexivity|]. cbn [repeat skipn]. apply IH.
Qed.

(** Copying at the end of what was written so far, into the zeros that
    follow. *)
Lemma memcpy_fill (written src : list ascii) (k : nat) (off : Z) :
  off = Z.of_nat (List.length written) -> (List.length src <= k)%nat ->
  memcpy (written ++ repeat NUL k) off src
  = Some ((written ++ src) ++ repeat NUL (k - List.length src)).
Proof.
  intros -> Hk. unfold memcpy.
  rewrite length_app, repeat_length.
  replace (0 <=? Z.of_nat (List.length written)) with true
    by (symmetry; apply Z.leb_le; lia).
  replace (Z.of_nat (List.length written) + Z.of_nat (List.length src)
           <=? Z.of_nat (List.length written + k)) with true
    by (symmetry; apply Z.leb_le; lia).
  cbn [andb]. rewrite Nat2Z.id.
  rewrite firstn_app, Nat.sub_diag, firstn_all. cbn [firstn]. rewrite app_nil_r.
  rewrite skipn_app.
  rewrite (skipn_all2 written) by lia. cbn [app].
  replace (List.length written + List.length src - List.length written)%nat
    with (List.length src) by lia.
  rewrite skipn_repeat_NUL. now rewrite <- app_assoc.
Qed.

Lemma bind_defined_memcpy {B : Type} (written src : list ascii) (k : nat)
    (off : Z) (f : list ascii -> M B) (st : state) :
  off = Z.of_nat (List.length written) -> (List.length src <= k)%nat ->
  bind (defined (memcpy (written ++ repeat NUL k) off src)) f st
  = f ((written ++ src) ++ repeat NUL (k - List.length src)) st.
Proof.
  intros Hoff Hk. unfold bind, defined.
  now rewrite (memcpy_fill written src k off Hoff Hk).
Qed.

(** Leaving one of the zeros in place as a terminator. *)
Lemma repeat_NUL_skip (written : list ascii) (k : nat) :
  (1 <= k)%nat ->
  written ++ repeat NUL k = (written ++ [NUL]) ++ repeat NUL (k - 1).
Proof.
  intro Hk. destruct k as [|k]; [lia|].
  cbn [repeat]. replace (S k - 1)%nat with k by lia.
  now rewrite <- app_assoc.
Qed.

Lemma size_t_small (x : Z) : 0 <= x < 2 ^ 64 -> size_t x = x.
Proof. intro H. unfold size_t. now apply Z.mod_small. Qed.

Lemma status_ne_refl (a : pmix_status_t) : status_ne a a = false.
Proof. unfold status_ne. now rewrite Z.eqb_refl. Qed.

Lemma status_ne_false (a b : pmix_status_t) : status_ne a b = false -> b = a.
Proof.
  unfold status_ne. intro H. apply negb_false_iff in H.
  now apply Z.eqb_eq in H.
Qed.

Lemma status_ne_true (a b : pmix_status_t) : status_ne a b = true -> b <> a.
Proof.
  unfold status_ne. intros H E. apply negb_true_iff in H.
  apply Z.eqb_neq in H. congruence.
Qed.

Lemma status_ne_neq (a b : pmix_status_t) : b <> a -> status_ne a b = true.
Proof.
  intro H. unfold status_ne. apply negb_true_iff, Z.eqb_neq. congruence.
Qed.

Lemma length_hdr_bytes (h : pmix_usock_hdr_t) :
  List.length (hdr_bytes h) = 16%nat.
Proof. reflexivity. Qed.

(** ** Tactics for running the statements *)

Ltac unfold_stmt :=
  unfold body, bind, get, extern, modify, modify_myserver, ret, return_,
    defined, invoke, CLOSE_THE_SOCKET, pmix_event_assign, pmix_event_add.

(** Removes the wrap-around of sizes that are in range, innermost first. *)
Ltac clear_size_t :=
  repeat match goal with
    | |- context [size_t ?x] =>
        lazymatch x with
        | context [size_t _] => fail
        | _ => rewrite (size_t_small x) by lia
        end
    end.

Ltac lengths :=
  rewrite ?length_app, ?length_chars, ?length_le_bytes, ?length_hdr_bytes;
  cbn [List.length String.length]; lia.

Ltac memcpy_step := rewrite bind_defined_memcpy by lengths.

Ltac skip_nul := rewrite repeat_NUL_skip by lengths.

Ltac split_memcpy :=
  repeat match goal with
    | |- context [memcpy ?b ?o ?s] => destruct (memcpy b o s)
    end.

(** Case analysis on the innermost test the goal is stuck on. *)
Ltac split_branches :=
  repeat match goal with
    | |- context [match ?x with _ => _ end] =>
        lazymatch x with
        | context [match _ with _ => _ end] => fail
        | _ => destruct x eqn:?
        end
    end.

Lemma state_eq (a b : state) :
  connected a = connected b -> globals_pindex a = globals_pindex b ->
  myid a = myid b -> myserver a = myserver b ->
  connection a = connection b -> calls a = calls b ->
  refcount a = refcount b -> event_queue a = event_queue b -> a = b.
Proof.
  destruct a, b. cbn. intros. now subst.
Qed.

(** ** What the two handshake functions do to the state *)

(** [recv_connect_ack] always returns; it reads the socket of the server
    peer and nothing else of the state, appends its calls and at most
    overwrites [pmix_globals.pindex]. *)
Lemma recv_connect_ack_effect (K : pmix_constants) (w : world) (fd : Z)
    (st : state) :
  exists rc cs index,
    (forall st2, sd (myserver st2) = sd (myserver st) ->
       recv_connect_ack K w fd st2 = Some (rc, after_handshake cs index st2))
    /\ forallb handshake_call cs = true.
Proof.
  unfold recv_connect_ack. unfold_stmt. unfold status_ne.
  split_branches.
  all: first [ match goal with
               | |- context [set_globals_pindex ?i] => eexists _, _, (Some i)
               end
             | eexists _, _, None ].
  all: (split; [intros st2 Hsd; f_equal; f_equal; apply state_eq; cbn;
                rewrite ?Hsd, <- ?app_assoc; reflexivity|]).
  all: reflexivity.
Qed.

(** [send_connect_ack] reads the process identity and the socket of the
    server peer, and only appends its calls, the first of which asks for
    the credential: two states that agree on what it reads see the same
    run. *)
Lemma send_connect_ack_effect (K : pmix_constants) (w : world) (fd : Z)
    (st st2 : state) :
  myid st2 = myid st -> sd (myserver st2) = sd (myserver st) ->
  match send_connect_ack K w fd st with
  | None => send_connect_ack K w fd st2 = None
  | Some (rc, st') =>
      exists cs, st' = after_handshake cs None st
                 /\ send_connect_ack K w fd st2
                    = Some (rc, after_handshake cs None st2)
                 /\ forallb handshake_call cs = true
                 /\ hd_error cs = Some (Call_create_cred (sd (myserver st)))
  end.
Proof.
  intros Hid Hsd. unfold send_connect_ack.
  unfold_stmt. rewrite Hid, Hsd.
  destruct (create_cred w) as [[rc cred] len].
  destruct (status_ne (PMIX_SUCCESS K) rc).
  { exists [Call_create_cred (sd (myserver st))].
    repeat split; f_equal; f_equal; now apply state_eq. }
  destruct (malloc_succeeds w _); cbn [negb].
  2:{ exists [Call_create_cred (sd (myserver st)); Call_get_available_modules].
      repeat split; f_equal; f_equal;
        apply state_eq; cbn; rewrite <- ?app_assoc; reflexivity. }
  destruct cred as [c|]; split_memcpy; try reflexivity.
  all: match goal with
       | |- context [status_ne ?a ?b] => destruct (status_ne a b)
       end;
       match goal with
       | |- context [Call_send_blocking ?fd ?m] =>
           exists [Call_create_cred (sd (myserver st));
                   Call_get_available_modules; Call_send_blocking fd m]
       end;
       repeat split; f_equal; f_equal;
         apply state_eq; cbn; rewrite <- ?app_assoc; reflexivity.
Qed.

(** ** [connect_to_peer], step by step *)

Lemma bind_modify {B : Type} (f : state -> state) (k : unit -> M B)
    (st : state) :
  bind (modify f) k st = k tt (f st).
Proof. reflexivity. Qed.

Lemma bind_modify_myserver {B : Type} (f : pmix_peer_t -> pmix_peer_t)
    (k : unit -> M B) (st : state) :
  bind (modify_myserver f) k st = k tt (set_myserver (f (myserver st)) st).
Proof. reflexivity. Qed.

Lemma bind_extern {B : Type} (c : call) (k : unit -> M B) (st : state) :
  bind (extern c) k st = k tt (add_call c st).
Proof. reflexivity. Qed.

Lemma bind_get {B : Type} (k : state -> M B) (st : state) :
  bind get k st = k st st.
Proof. reflexivity. Qed.

Lemma bind_ret {A B : Type} (a : A) (k : A -> M B) (st : state) :
  bind (ret a) k st = k a st.
Proof. reflexivity. Qed.

Lemma bind_invoke {B : Type} (f : state -> option (pmix_status_t * state))
    (k : pmix_status_t -> M B) (st : state) :
  bind (invoke f) k st
  = match f st with
    | Some (rc, st') => k rc st'
    | None => None
    end.
Proof. unfold bind, invoke. now destruct (f st) as [[rc st']|]. Qed.

Lemma connect_to_peer_not_client (K : pmix_constants) (w : world)
    (st : state) :
  PMIX_PROC_IS_CLIENT w = false ->
  connect_to_peer K w st = Some (PMIX_ERR_NOT_SUPPORTED K, st).
Proof.
  intro Hc. unfold connect_to_peer, body. now rewrite Hc.
Qed.

Lemma connect_to_peer_no_descriptor (K : pmix_constants) (w : world)
    (st : state) :
  PMIX_PROC_IS_CLIENT w = true ->
  getenv_PMIX_SERVER_URI w = None ->
  connect_to_peer K w st = Some (PMIX_ERR_SERVER_NOT_AVAIL K, st).
Proof.
  intros Hc He. unfold connect_to_peer, body. now rewrite Hc, He.
Qed.

Lemma connect_to_peer_malformed (K : pmix_constants) (w : world)
    (st : state) (evar : string) :
  PMIX_PROC_IS_CLIENT w = true ->
  getenv_PMIX_SERVER_URI w = Some evar ->
  List.length (pmix_argv_split w evar) <> 3%nat ->
  connect_to_peer K w st = Some (PMIX_ERROR K, st).
Proof.
  intros Hc He Hn. unfold connect_to_peer, body.
  rewrite Hc. cbn [negb]. rewrite He, bind_ret.
  apply Nat.eqb_neq in Hn. now rewrite Hn.
Qed.

(** With a three-field descriptor the function records the rendezvous,
    checks the path, opens the socket and runs the handshake. *)
Lemma connect_to_peer_eq (K : pmix_constants) (w : world) (st : state)
    (evar uri0 uri1 uri2 : string) :
  PMIX_PROC_IS_CLIENT w = true ->
  getenv_PMIX_SERVER_URI w = Some evar ->
  pmix_argv_split w evar = [uri0; uri1; uri2] ->
  let st1 := rendezvous K uri0 uri1 uri2 st in
  connect_to_peer K w st
  = if negb (access_R_OK w uri2 =? 0) then Some (PMIX_ERR_NOT_FOUND K, st1)
    else
      let (rc, fd) := pmix_ptl_base_connect w (connection st1) in
      if status_ne (PMIX_SUCCESS K) rc
      then Some (rc, add_call (Call_connect (connection st1)) st1)
      else handshake K w fd (opened (connection st1) fd st1).
Proof.
  intros Hc He Hs st1.
  unfold connect_to_peer, body.
  rewrite Hc. cbn [negb]. rewrite He, bind_ret, Hs.
  cbn [List.length Nat.eqb negb nth].
  rewrite !bind_modify_myserver, bind_modify.
  match goal with
  | |- context [set_connection ?a ?s] =>
      replace (set_connection a s) with st1
        by (subst st1; unfold rendezvous;
            destruct st as [? ? ? [[[[?|] ?]|] ? ? ? ? ?] ? ? ? ?];
            reflexivity)
  end.
  destruct (access_R_OK w uri2 =? 0); cbn [negb]; [|reflexivity].
  rewrite bind_get, bind_extern.
  destruct (pmix_ptl_base_connect w (connection st1)) as [rc fd].
  destruct (status_ne (PMIX_SUCCESS K) rc); [reflexivity|].
  rewrite bind_modify_myserver, bind_invoke.
  unfold handshake.
  change (set_myserver _ (add_call (Call_connect (connection st1)) st1))
    with (opened (connection st1) fd st1).
  destruct (send_connect_ack K w fd _) as [[rc0 st0]|]; [|reflexivity].
  destruct (status_ne (PMIX_SUCCESS K) rc0); [reflexivity|].
  rewrite bind_ret, bind_invoke.
  destruct (recv_connect_ack K w fd st0) as [[rc1 st2]|]; [|reflexivity].
  destruct (status_ne (PMIX_SUCCESS K) rc1); [reflexivity|].
  cbv [bind get extern modify modify_myserver ret return_
       pmix_event_assign pmix_event_add].
  f_equal. f_equal.
  destruct st2 as [? ? ? [? ? ? ? ? ?] ? ? ? ?].
  apply state_eq; cbn; rewrite <- ?app_assoc; reflexivity.
Qed.

Lemma after_handshake_twice (cs1 cs2 : list call) (index : option Z)
    (st : state) :
  after_handshake cs2 index (after_handshake cs1 None st)
  = after_handshake (cs1 ++ cs2) index st.
Proof.
  apply state_eq; cbn; rewrite <- ?app_assoc; reflexivity.
Qed.

Lemma add_call_after_handshake (c : call) (cs : list call)
    (index : option Z) (st : state) :
  add_call c (after_handshake cs index st)
  = after_handshake (cs ++ [c]) index st.
Proof.
  apply state_eq; cbn; rewrite <- ?app_assoc; reflexivity.
Qed.

(** The handshake reads the process identity and the socket of the
    server peer: two states that agree on them see the same run.  A failed
    handshake ends with the close of the socket; a successful one with the
    set-up of the events. *)
Lemma handshake_effect (K : pmix_constants) (w : world) (fd : Z)
    (st st2 : state) :
  myid st2 = myid st -> sd (myserver st2) = sd (myserver st) ->
  match handshake K w fd st with
  | None => handshake K w fd st2 = None
  | Some (rc, st') =>
      exists cs index,
        forallb handshake_call cs = true
        /\ hd_error cs = Some (Call_create_cred (sd (myserver st)))
        /\ ((rc <> PMIX_SUCCESS K
             /\ st' = after_handshake (cs ++ [Call_close fd]) index st
             /\ handshake K w fd st2
                = Some (rc, after_handshake (cs ++ [Call_close fd]) index st2))
            \/ (rc = PMIX_SUCCESS K
                /\ st' = registered fd (after_handshake cs index st)
                /\ handshake K w fd st2
                   = Some (rc, registered fd (after_handshake cs index st2))))
  end.
Proof.
  intros Hid Hsd. unfold handshake.
  pose proof (send_connect_ack_effect K w fd st st2 Hid Hsd) as Hsend.
  destruct (send_connect_ack K w fd st) as [[rc1 st1]|];
    [|now rewrite Hsend].
  destruct Hsend as (cs1 & -> & -> & Hall1 & Hhd1).
  destruct (status_ne (PMIX_SUCCESS K) rc1) eqn:Hrc1.
  { exists cs1, None. rewrite !add_call_after_handshake.
    apply status_ne_true in Hrc1. split; [|split]; try assumption.
    left. now repeat split. }
  destruct (recv_connect_ack_effect K w fd (after_handshake cs1 None st))
    as (rc2 & cs2 & index & Hrecv & Hall2).
  rewrite (Hrecv (after_handshake cs1 None st) eq_refl).
  rewrite (Hrecv (after_handshake cs1 None st2) Hsd).
  rewrite !after_handshake_twice.
  assert (Hall : forallb handshake_call (cs1 ++ cs2) = true)
    by (rewrite forallb_app, Hall1, Hall2; reflexivity).
  assert (Hhd : hd_error (cs1 ++ cs2)
                = Some (Call_create_cred (sd (myserver st))))
    by (destruct cs1; [discriminate|exact Hhd1]).
  destruct (status_ne (PMIX_SUCCESS K) rc2) eqn:Hrc2;
    exists (cs1 ++ cs2), index; (split; [exact Hall|]);
    (split; [exact Hhd|]).
  - left. apply status_ne_true in Hrc2.
    rewrite !add_call_after_handshake. now repeat split.
  - right. now repeat split.
Qed.

(** Every run of the function is one of the runs of [connect_run]. *)
Lemma connect_to_peer_run (K : pmix_constants) (w : world) (st : state)
    (rc : pmix_status_t) (st' : state) :
  connect_to_peer K w st = Some (rc, st') -> connect_run K w st rc st'.
Proof.
  intro Hrun.
  destruct (PMIX_PROC_IS_CLIENT w) eqn:Hc.
  2:{ rewrite (connect_to_peer_not_client K w st Hc) in Hrun.
      injection Hrun as <- <-. now constructor. }
  destruct (getenv_PMIX_SERVER_URI w) as [evar|] eqn:He.
  2:{ rewrite (connect_to_peer_no_descriptor K w st Hc He) in Hrun.
      injection Hrun as <- <-. now constructor. }
  destruct (pmix_argv_split w evar) as [|uri0 [|uri1 [|uri2 [|uri3 rest]]]]
    eqn:Hs.
  1-3,5: rewrite (connect_to_peer_malformed K w st evar Hc He) in Hrun
           by (rewrite Hs; discriminate);
         injection Hrun as <- <-;
         apply (Run_malformed K w st evar Hc He); rewrite Hs; discriminate.
  rewrite (connect_to_peer_eq K w st evar uri0 uri1 uri2 Hc He Hs) in Hrun.
  cbv zeta in Hrun.
  destruct (access_R_OK w uri2 =? 0) eqn:Ha; cbn [negb] in Hrun.
  2:{ injection Hrun as <- <-. apply Z.eqb_neq in Ha.
      now apply (Run_not_found K w st evar). }
  apply Z.eqb_eq in Ha.
  destruct (pmix_ptl_base_connect w _) as [rc0 fd] eqn:Hconn.
  destruct (status_ne (PMIX_SUCCESS K) rc0) eqn:Hrc0.
  { injection Hrun as <- <-. apply status_ne_true in Hrc0.
    now apply (Run_unreachable K w st evar uri0 uri1 uri2 rc0 fd). }
  apply status_ne_false in Hrc0. subst rc0.
  match type of Hrun with
  | handshake _ _ _ ?s = _ =>
      pose proof (handshake_effect K w fd s s eq_refl eq_refl) as Hh
  end.
  rewrite Hrun in Hh.
  destruct Hh as (cs & index & Hall & Hhd & [(Hrc & -> & _)|(-> & -> & _)]).
  - now apply (Run_handshake_failed K w st evar uri0 uri1 uri2 fd rc cs index).
  - now apply (Run_connected K w st evar uri0 uri1 uri2 fd cs index).
Qed.

(** ** Reading the log of calls *)

Lemma handshake_calls_only (cs : list call) :
  forallb handshake_call cs = true ->
  closed_fds cs = [] /\ connects cs = [] /\ event_adds cs = []
  /\ read_registrations cs = [].
Proof.
  induction cs as [|c cs IH]; [now repeat split|].
  cbn [forallb]. intro H. apply andb_true_iff in H. destruct H as [Hc Hcs].
  destruct (IH Hcs) as (H1 & H2 & H3 & H4).
  unfold closed_fds, connects, event_adds, read_registrations in *.
  cbn [flat_map]. rewrite H1, H2, H3, H4.
  destruct c; try discriminate; now repeat split.
Qed.

Lemma app_eq_self_nil {A : Type} (l cs : list A) : l = l ++ cs -> cs = [].
Proof.
  intro H. rewrite <- (app_nil_r l) in H at 1.
  now apply app_inv_head in H.
Qed.

Lemma in_connects (a : sockaddr_un) (cs : list call) :
  In (Call_connect a) cs -> In a (connects cs).
Proof.
  intro H. unfold connects. apply in_flat_map.
  exists (Call_connect a). split; [exact H | now left].
Qed.

(** The calls a run adds to the log, by the kind of run. *)
Lemma connect_run_calls (K : pmix_constants) (w : world) (st : state)
    (rc : pmix_status_t) (st' : state) (cs : list call) :
  connect_run K w st rc st' -> calls st' = calls st ++ cs ->
  (cs = [] /\ st' = st
   /\ (rc = PMIX_ERR_NOT_SUPPORTED K \/ rc = PMIX_ERR_SERVER_NOT_AVAIL K
       \/ rc = PMIX_ERROR K))
  \/ (cs = [] /\ sd (myserver st') = sd (myserver st)
      /\ connected st' = connected st /\ rc = PMIX_ERR_NOT_FOUND K)
  \/ (exists addr fd,
        cs = [Call_connect addr] /\ rc <> PMIX_SUCCESS K
        /\ pmix_ptl_base_connect w addr = (rc, fd)
        /\ connected st' = connected st)
  \/ (exists addr fd hs,
        cs = Call_connect addr :: hs ++ [Call_close fd]
        /\ rc <> PMIX_SUCCESS K
        /\ pmix_ptl_base_connect w addr = (PMIX_SUCCESS K, fd)
        /\ forallb handshake_call hs = true
        /\ hd_error hs = Some (Call_create_cred fd)
        /\ sd (myserver st') = fd
        /\ connected st' = connected st)
  \/ (exists addr fd hs,
        cs = Call_connect addr :: hs
             ++ [Call_set_nonblocking fd;
                 Call_event_assign Recv_event (read_event fd);
                 Call_event_add Recv_event (Some (read_event fd));
                 Call_event_assign Send_event (write_event fd)]
        /\ rc = PMIX_SUCCESS K
        /\ pmix_ptl_base_connect w addr = (PMIX_SUCCESS K, fd)
        /\ forallb handshake_call hs = true
        /\ hd_error hs = Some (Call_create_cred fd)
        /\ connected st' = true
        /\ sd (myserver st') = fd
        /\ recv_event (myserver st') = Some (read_event fd)
        /\ recv_ev_active (myserver st') = true
        /\ send_event (myserver st') = Some (write_event fd)
        /\ send_ev_active (myserver st') = false).
Proof.
  intros Hrun Hcalls.
  inversion Hrun; subst; cbn in Hcalls.
  - left. apply app_eq_self_nil in Hcalls. repeat split; tauto.
  - left. apply app_eq_self_nil in Hcalls. repeat split; tauto.
  - left. apply app_eq_self_nil in Hcalls. repeat split; tauto.
  - right; left. apply app_eq_self_nil in Hcalls. now repeat split.
  - right; right; left. apply app_inv_head in Hcalls. subst cs.
    eexists _, _. repeat split; eassumption.
  - right; right; right; left.
    rewrite <- app_assoc in Hcalls. apply app_inv_head in Hcalls. subst cs.
    eexists _, _, _. repeat split; try eassumption; reflexivity.
  - right; right; right; right.
    rewrite <- !app_assoc in Hcalls. apply app_inv_head in Hcalls. subst cs.
    eexists _, _, _. repeat split; try eassumption; reflexivity.
Qed.


(** ** The rank of the server *)

Lemma strtoull_no_digit (s : string) :
  starts_with_digit s = false -> strtoull s = 0.
Proof.
  unfold starts_with_digit, strtoull.
  destruct (strip_sign (skip_spaces s)) as [neg s2]. cbn [snd].
  destruct s2 as [|c s3]; cbn [digits_prefix]; [reflexivity|].
  now intros ->.
Qed.

Lemma handshake_with_fields (K : pmix_constants) (fields : list string)
    (w : world) (fd : Z) (st : state) :
  handshake K (with_fields fields w) fd st = handshake K w fd st.
Proof. reflexivity. Qed.

Lemma connect_run_rank (K : pmix_constants) (w : world) (st : state)
    (rc : pmix_status_t) (st' : state) (evar ns r p : string) :
  connect_run K w st rc st' ->
  PMIX_PROC_IS_CLIENT w = true ->
  getenv_PMIX_SERVER_URI w = Some evar ->
  pmix_argv_split w evar = [ns; r; p] ->
  server_rank st' = Some (rank_of_ull (strtoull r)).
Proof.
  intros Hrun Hc He Hs.
  inversion Hrun; subst; try congruence.
  all: repeat match goal with
       | H1 : getenv_PMIX_SERVER_URI _ = Some _,
         H2 : getenv_PMIX_SERVER_URI _ = Some _ |- _ =>
           rewrite H1 in H2; injection H2 as <-
       | H1 : pmix_argv_split _ _ = [_; _; _],
         H2 : pmix_argv_split _ _ = [_; _; _] |- _ =>
           rewrite H1 in H2; injection H2 as <- <- <-
       | H1 : pmix_argv_split _ _ = [_; _; _],
         H2 : List.length (pmix_argv_split _ _) <> _ |- _ =>
           rewrite H1 in H2; now contradiction H2
       end.
  all: reflexivity.
Qed.


(** ** The connect message, whatever length the credential is given *)

Lemma memcpy_some (buf : list ascii) (off : Z) (src buf' : list ascii) :
  memcpy buf off src = Some buf' ->
  0 <= off
  /\ off + Z.of_nat (List.length src) <= Z.of_nat (List.length buf)
  /\ List.length buf' = List.length buf.
Proof.
  unfold memcpy.
  destruct (0 <=? off) eqn:H0; [|discriminate].
  destruct (off + Z.of_nat (List.length src) <=? Z.of_nat (List.length buf))
    eqn:H1; [|discriminate].
  cbn [andb]. intros [= <-].
  apply Z.leb_le in H0, H1.
  repeat split; try assumption.
  rewrite !length_app, length_firstn, length_skipn. lia.
Qed.

Lemma bind_defined {A B : Type} (o : option A) (f : A -> M B) (st : state) :
  bind (defined o) f st
  = match o with
    | Some a => f a st
    | None => None
    end.
Proof. unfold bind, defined. now destruct o. Qed.

Lemma payload_fields_length (K : pmix_constants) (w : world) (st : state)
    (rc : pmix_status_t) (cred : option string) (len : Z) :
  create_cred w = (rc, cred, len) ->
  Z.of_nat (List.length (payload_fields (handshake_fields K w st)))
  = strlen (proc_nspace (myid st)) + 1 + sizeof_int
    + strlen (PMIX_VERSION K) + 1
    + strlen (cred_string cred) + 1
    + (strlen (pmix_psec_base_get_available_modules w) + 1)
    + (strlen "v20" + 1) + 1
    + strlen (if PMIX_ENABLE_DSTORE K then "ds12" else "hash").
Proof.
  intro Hcred. unfold payload_fields, handshake_fields.
  cbn [h_nspace h_rank h_version h_cred h_sec h_bfrops h_flag h_gds].
  rewrite Hcred. cbn [fst snd].
  rewrite !length_app, !length_chars, length_le_bytes. cbn [List.length].
  unfold strlen, sizeof_int. lia.
Qed.

Lemma payload_fields_eq (K : pmix_constants) (w : world) (st : state)
    (rc : pmix_status_t) (cred : option string) (len : Z) :
  create_cred w = (rc, cred, len) ->
  payload_fields (handshake_fields K w st)
  = chars (proc_nspace (myid st)) ++ [NUL]
    ++ le_bytes 4 (proc_rank (myid st))
    ++ chars (PMIX_VERSION K) ++ [NUL]
    ++ chars (cred_string cred) ++ [NUL]
    ++ chars (pmix_psec_base_get_available_modules w) ++ [NUL]
    ++ chars "v20" ++ [NUL]
    ++ le_bytes 1 (if PMIX_ENABLE_DEBUG K then 2 else 1)
    ++ chars (if PMIX_ENABLE_DSTORE K then "ds12" else "hash").
Proof.
  intro Hcred. unfold payload_fields, handshake_fields.
  cbn [h_nspace h_rank h_version h_cred h_sec h_bfrops h_flag h_gds].
  rewrite Hcred. cbn [fst snd].
  now destruct (PMIX_ENABLE_DEBUG K).
Qed.

Ltac finish_padded Hpay hdr fields k :=
  match goal with
  | |- context [repeat NUL ?k'] => replace k' with k by lengths
  end;
  match goal with
  | |- context [Call_send_blocking ?fd ?m] =>
      replace m with (hdr_bytes hdr ++ fields ++ repeat NUL k)
        by (rewrite <- !app_assoc;
            apply (f_equal (app (hdr_bytes hdr)));
            rewrite Hpay, <- !app_assoc; reflexivity)
  end;
  unfold bind, extern, modify, ret, return_; cbn [fold_left];
  match goal with
  | |- context [status_ne ?a ?b] => destruct (status_ne a b)
  end; f_equal; f_equal; apply state_eq; cbn; rewrite <- ?app_assoc;
  reflexivity.

(** With room for the credential, the buffer is filled from its start
    without a gap and sent whole. *)
Lemma send_connect_ack_message (K : pmix_constants) (w : world) (fd : Z)
    (st : state) :
  fst (fst (create_cred w)) = PMIX_SUCCESS K ->
  0 <= snd (create_cred w) ->
  0 <= connect_padding w ->
  sizeof_hdr + connect_nbytes K w st < 2 ^ 64 ->
  malloc_succeeds w (sizeof_hdr + connect_nbytes K w st) = true ->
  let msg := connect_message K w st in
  send_connect_ack K w fd st
  = Some (if status_ne (PMIX_SUCCESS K) (pmix_ptl_base_send_blocking w fd msg)
          then PMIX_ERR_UNREACH K else PMIX_SUCCESS K,
          after_handshake [Call_create_cred (sd (myserver st));
                           Call_get_available_modules;
                           Call_send_blocking fd msg] None st).
Proof.
  unfold connect_message, connect_nbytes, connect_padding.
  destruct (create_cred w) as [[rc cred] len] eqn:Hcred. cbn [fst snd].
  intros -> Hlen0 Hc Hsize Hmalloc.
  pose proof (payload_fields_length K w st _ _ _ Hcred) as Hlen.
  pose proof (payload_fields_eq K w st _ _ _ Hcred) as Hpay.
  set (fields := payload_fields (handshake_fields K w st)) in *.
  set (c := strlen (cred_string cred)) in *.
  set (n := Z.of_nat (List.length fields) + (len + 1 - c)) in *.
  assert (Hn : n = strlen (proc_nspace (myid st)) + 1 + sizeof_int
       + strlen (PMIX_VERSION K) + 1 + len + 1
       + (strlen (pmix_psec_base_get_available_modules w) + 1)
       + (strlen "v20" + 1) + 1
       + (strlen (if PMIX_ENABLE_DSTORE K then "ds12" else "hash") + 1))
    by (subst n c; lia).
  set (hdr := {| pindex := -1; tag := UINT32_MAX; nbytes := n |}).
  set (k := Z.to_nat (len + 1 - c)) in *.
  assert (Hkz : Z.of_nat k = len + 1 - c) by (subst k; lia).
  assert (Hnz : sizeof_hdr + n = Z.of_nat (16 + List.length fields + k))
    by (subst n; unfold sizeof_hdr; lia).
  clearbody k fields n. cbv zeta.
  unfold send_connect_ack, body.
  rewrite bind_get, bind_extern.
  rewrite Hcred, status_ne_refl, bind_extern.
  subst c. unfold strlen in *. unfold sizeof_hdr, sizeof_int in *.
  change (String.length "v20") with 3%nat in *.
  clear_size_t.
  rewrite <- Hn, Hmalloc. cbn [negb].
  rewrite Hnz, Nat2Z.id.
  change (repeat NUL (16 + List.length fields + k))
    with ([] ++ repeat NUL (16 + List.length fields + k)).
  memcpy_step.
  memcpy_step.
  skip_nul. memcpy_step.
  memcpy_step.
  unfold bind at 1.
  destruct cred as [cr|]; cbn [cred_string String.length] in *.
  - skip_nul. memcpy_step. unfold ret at 1. clear_size_t.
    skip_nul. memcpy_step. skip_nul. memcpy_step. skip_nul. memcpy_step.
    memcpy_step. finish_padded Hpay hdr fields k.
  - skip_nul. unfold ret at 1. clear_size_t.
    skip_nul. memcpy_step. skip_nul. memcpy_step. skip_nul. memcpy_step.
    memcpy_step. finish_padded Hpay hdr fields k.
Qed.

Lemma length_connect_message (K : pmix_constants) (w : world) (st : state) :
  0 <= connect_padding w ->
  Z.of_nat (List.length (connect_message K w st))
  = sizeof_hdr + connect_nbytes K w st.
Proof.
  intro Hpad. unfold connect_message, connect_nbytes.
  rewrite !length_app, repeat_length, length_hdr_bytes.
  unfold sizeof_hdr. lia.
Qed.

Ltac memcpy_or_overrun :=
  rewrite bind_defined;
  match goal with
  | |- context [memcpy ?b ?o ?s] =>
      let E := fresh "E" in
      destruct (memcpy b o s) eqn:E; [apply memcpy_some in E|reflexivity]
  end.

(** The three ways [send_connect_ack] returns. *)
Lemma send_connect_ack_inv (K : pmix_constants) (w : world) (fd : Z)
    (st : state) (rc : pmix_status_t) (st' : state) :
  send_connect_ack K w fd st = Some (rc, st') ->
  let cred_call := Call_create_cred (sd (myserver st)) in
  (fst (fst (create_cred w)) <> PMIX_SUCCESS K
   /\ rc = fst (fst (create_cred w))
   /\ st' = after_handshake [cred_call] None st)
  \/ (fst (fst (create_cred w)) = PMIX_SUCCESS K
      /\ rc = PMIX_ERR_OUT_OF_RESOURCE K
      /\ st' = after_handshake [cred_call; Call_get_available_modules] None st)
  \/ (exists msg,
        fst (fst (create_cred w)) = PMIX_SUCCESS K
        /\ rc = (if status_ne (PMIX_SUCCESS K)
                      (pmix_ptl_base_send_blocking w fd msg)
                 then PMIX_ERR_UNREACH K else PMIX_SUCCESS K)
        /\ st' = after_handshake
                   [cred_call; Call_get_available_modules;
                    Call_send_blocking fd msg] None st).
Proof.
  unfold send_connect_ack. unfold_stmt.
  destruct (create_cred w) as [[rc0 cred] len]. cbn [fst].
  destruct (status_ne (PMIX_SUCCESS K) rc0) eqn:Hrc0.
  { intros [= <- <-]. left. apply status_ne_true in Hrc0.
    split; [assumption|]. split; [reflexivity|]. now apply state_eq. }
  apply status_ne_false in Hrc0.
  destruct (malloc_succeeds w _); cbn [negb].
  2:{ intros [= <- <-]. right; left.
      split; [assumption|]. split; [reflexivity|].
      apply state_eq; cbn; rewrite <- ?app_assoc; reflexivity. }
  destruct cred as [c|]; split_memcpy; try discriminate.
  all: intro Hrun; right; right;
       match type of Hrun with
       | context [Call_send_blocking ?fd ?m] => exists m
       end;
       (split; [assumption|]);
       destruct (status_ne _ _); injection Hrun as <- <-;
       (split; [reflexivity|]);
       apply state_eq; cbn; rewrite <- ?app_assoc; reflexivity.
Qed.

(** ** The acknowledgment, run by run *)

Ltac split_tests :=
  repeat match goal with
    | |- context [if negb (?a =? ?b) then _ else _] =>
        destruct (a =? b) eqn:?; cbn [negb]
    | |- context [if (?a =? ?b) then _ else _] =>
        destruct (a =? b) eqn:?
    end.

Lemma recv_connect_ack_acknowledged (K : pmix_constants) (w : world) (fd : Z)
    (st : state) :
  acknowledged K w fd = true ->
  recv_connect_ack K w fd st
  = Some (PMIX_SUCCESS K,
          after_handshake (ack_calls K w (sd (myserver st)) fd)
            (Some (snd (recv_blocking_pindex w))) st).
Proof.
  unfold acknowledged, ack_calls, timeout_calls, restore_calls, shake_calls.
  unfold recv_connect_ack. unfold_stmt. unfold status_ne.
  destruct (recv_blocking_status w) as [rc1 reply].
  destruct (recv_blocking_pindex w) as [rc2 idx]. cbn [fst snd].
  intro H.
  apply andb_true_iff in H. destruct H as [H Hidx].
  apply andb_true_iff in H. destruct H as [H Hreply].
  apply andb_true_iff in H. destruct H as [Hso Hstatus].
  apply Z.eqb_eq in Hidx, Hstatus. subst rc1 rc2.
  assert (Hrun :
    (if reply =? PMIX_ERR_READY_FOR_HANDSHAKE K
     then PMIX_SUCCESS K =? client_handshake w
     else PMIX_SUCCESS K =? reply) = true).
  { destruct (reply =? PMIX_ERR_READY_FOR_HANDSHAKE K);
      apply Z.eqb_eq in Hreply; rewrite Hreply; apply Z.eqb_refl. }
  rewrite !Z.eqb_refl. cbn [negb].
  destruct (getsockopt_SO_RCVTIMEO w fd) as [save sz|errno].
  - apply andb_true_iff in Hso. destruct Hso as [H1 H2].
    rewrite H1, H2. cbn [negb].
    destruct (reply =? PMIX_ERR_READY_FOR_HANDSHAKE K); rewrite Hrun;
      cbn [negb]; f_equal; f_equal;
      apply state_eq; cbn; rewrite <- ?app_assoc; reflexivity.
  - rewrite Hso.
    destruct (reply =? PMIX_ERR_READY_FOR_HANDSHAKE K); rewrite Hrun;
      cbn [negb]; f_equal; f_equal;
      apply state_eq; cbn; rewrite <- ?app_assoc; reflexivity.
Qed.

Lemma recv_connect_ack_success_inv (K : pmix_constants) (w : world) (fd : Z)
    (st st' : state) :
  PMIX_ERR_UNREACH K <> PMIX_SUCCESS K ->
  recv_connect_ack K w fd st = Some (PMIX_SUCCESS K, st') ->
  acknowledged K w fd = true.
Proof.
  intros Hne Hrun. apply (f_equal (option_map fst)) in Hrun.
  revert Hrun. cbn [option_map fst].
  unfold acknowledged.
  unfold recv_connect_ack. unfold_stmt. unfold status_ne.
  destruct (recv_blocking_status w) as [rc1 reply].
  destruct (recv_blocking_pindex w) as [rc2 idx]. cbn [fst snd].
  rewrite !(Z.eqb_sym (PMIX_SUCCESS K)).
  destruct (getsockopt_SO_RCVTIMEO w fd) as [save sz|errno].
  all: split_tests.
  all: cbn [negb andb option_map fst]; try reflexivity.
  all: intros [=].
  all: repeat match goal with
         | H : (_ =? _) = false |- _ => apply Z.eqb_neq in H
         end; congruence.
Qed.

(** What any run of [recv_connect_ack] calls: nothing is sent, at most two
    reads are made, every call is on [fd]; and with a supported timeout,
    the saved value is put back only once the index was read. *)
Lemma recv_connect_ack_calls (K : pmix_constants) (w : world) (fd : Z)
    (st : state) (rc : pmix_status_t) (st' : state) (cs : list call) :
  recv_connect_ack K w fd st = Some (rc, st') ->
  calls st' = calls st ++ cs ->
  sends cs = [] /\ (List.length (recvs cs) <= 2)%nat
  /\ closed_fds cs = [] /\ forallb handshake_call cs = true
  /\ (sd (myserver st) = fd -> forallb (on_descriptor fd) cs = true).
Proof.
  unfold recv_connect_ack. unfold_stmt. unfold status_ne.
  destruct (recv_blocking_status w) as [rc1 reply].
  destruct (recv_blocking_pindex w) as [rc2 idx].
  destruct (getsockopt_SO_RCVTIMEO w fd) as [save sz|errno].
  all: split_tests.
  all: intros [= <- <-]; cbn [calls add_call set_globals_pindex];
    rewrite <- ?app_assoc; intro Hcs; apply app_inv_head in Hcs; subst cs.
  all: cbn; rewrite ?Z.eqb_refl; repeat split; try lia.
  all: intros ->; now rewrite ?Z.eqb_refl.
Qed.

(** ** The handshake and the runs of [connect_to_peer], in detail *)

Lemma sends_app (cs1 cs2 : list call) :
  sends (cs1 ++ cs2) = sends cs1 ++ sends cs2.
Proof. apply flat_map_app. Qed.

Lemma recvs_app (cs1 cs2 : list call) :
  recvs (cs1 ++ cs2) = recvs cs1 ++ recvs cs2.
Proof. apply flat_map_app. Qed.

Lemma closed_fds_app (cs1 cs2 : list call) :
  closed_fds (cs1 ++ cs2) = closed_fds cs1 ++ closed_fds cs2.
Proof. apply flat_map_app. Qed.

(** A handshake that succeeds sent one message, which the daemon took,
    and was acknowledged. *)
Lemma handshake_success (K : pmix_constants) (w : world) (fd : Z)
    (st st' : state) :
  PMIX_ERR_OUT_OF_RESOURCE K <> PMIX_SUCCESS K ->
  PMIX_ERR_UNREACH K <> PMIX_SUCCESS K ->
  handshake K w fd st = Some (PMIX_SUCCESS K, st') ->
  exists msg,
    fst (fst (create_cred w)) = PMIX_SUCCESS K
    /\ pmix_ptl_base_send_blocking w fd msg = PMIX_SUCCESS K
    /\ acknowledged K w fd = true
    /\ st' = registered fd
               (after_handshake
                  ([Call_create_cred (sd (myserver st));
                    Call_get_available_modules; Call_send_blocking fd msg]
                   ++ ack_calls K w (sd (myserver st)) fd)
                  (Some (snd (recv_blocking_pindex w))) st).
Proof.
  intros Hoor Hunreach. unfold handshake.
  destruct (send_connect_ack K w fd st) as [[rc1 st1]|] eqn:Hsend;
    [|discriminate].
  destruct (status_ne (PMIX_SUCCESS K) rc1) eqn:Hrc1.
  { apply status_ne_true in Hrc1. intros [= E _]. contradiction. }
  apply status_ne_false in Hrc1. subst rc1.
  destruct (send_connect_ack_inv K w fd st _ st1 Hsend)
    as [(Hne & E & _)|[(_ & E & _)|(msg & Hcred & E & ->)]];
    try (symmetry in E; contradiction).
  destruct (status_ne (PMIX_SUCCESS K) (pmix_ptl_base_send_blocking w fd msg))
    eqn:Hmsg; [symmetry in E; contradiction|].
  apply status_ne_false in Hmsg.
  destruct (recv_connect_ack K w fd _) as [[rc2 st2]|] eqn:Hrecv;
    [|discriminate].
  destruct (status_ne (PMIX_SUCCESS K) rc2) eqn:Hrc2.
  { apply status_ne_true in Hrc2. intros [= E2 _]. contradiction. }
  apply status_ne_false in Hrc2. subst rc2.
  intros [= <-].
  pose proof (recv_connect_ack_success_inv K w fd _ st2 Hunreach Hrecv)
    as Hack.
  rewrite (recv_connect_ack_acknowledged K w fd _ Hack) in Hrecv.
  injection Hrecv as <-.
  exists msg. repeat split; try assumption.
  now rewrite after_handshake_twice.
Qed.


(** What any handshake calls. *)
Lemma handshake_calls (K : pmix_constants) (w : world) (fd : Z)
    (st : state) (rc : pmix_status_t) (st' : state) (cs : list call) :
  handshake K w fd st = Some (rc, st') ->
  calls st' = calls st ++ cs ->
  sd (myserver st) = fd ->
  forallb (on_descriptor fd) cs = true
  /\ (List.length (sends cs) <= 1)%nat
  /\ (List.length (recvs cs) <= 2)%nat
  /\ (List.length (closed_fds cs) <= 1)%nat.
Proof.
  intros Hrun Hcs Hsd. unfold handshake in Hrun.
  destruct (send_connect_ack K w fd st) as [[rc1 st1]|] eqn:Hsend;
    [|discriminate].
  assert (H1 : exists cs1,
             st1 = after_handshake cs1 None st
             /\ forallb (on_descriptor fd) cs1 = true
             /\ (List.length (sends cs1) <= 1)%nat
             /\ recvs cs1 = [] /\ closed_fds cs1 = []).
  { destruct (send_connect_ack_inv K w fd st _ st1 Hsend)
      as [(_ & _ & ->)|[(_ & _ & ->)|(msg & _ & _ & ->)]];
      eexists; (split; [reflexivity|]); cbn; rewrite Hsd, ?Z.eqb_refl;
      repeat split; lia. }
  destruct H1 as (cs1 & -> & Hon1 & Hs1 & Hr1 & Hc1).
  destruct (status_ne (PMIX_SUCCESS K) rc1).
  { injection Hrun as <- <-. cbn in Hcs. rewrite <- app_assoc in Hcs.
    apply app_inv_head in Hcs. subst cs.
    rewrite forallb_app, sends_app, recvs_app, closed_fds_app, Hon1, Hr1, Hc1.
    cbn. rewrite Z.eqb_refl, ?Nat.add_0_r, ?length_app. cbn [List.length].
    repeat split; lia. }
  destruct (recv_connect_ack_effect K w fd (after_handshake cs1 None st))
    as (rc2 & cs2 & index & Hrecv & _).
  specialize (Hrecv _ eq_refl).
  destruct (recv_connect_ack_calls K w fd _ _ _ cs2 Hrecv eq_refl)
    as (Hs2 & Hr2 & Hc2 & _ & Hon2).
  specialize (Hon2 Hsd).
  rewrite Hrecv in Hrun.
  destruct (status_ne (PMIX_SUCCESS K) rc2).
  - injection Hrun as <- <-. cbn in Hcs. rewrite <- !app_assoc in Hcs.
    apply app_inv_head in Hcs. subst cs.
    rewrite !forallb_app, !sends_app, !recvs_app, !closed_fds_app,
      Hon1, Hon2, Hr1, Hc1, Hs2, Hc2.
    cbn. rewrite Z.eqb_refl, ?Nat.add_0_r, ?length_app. cbn [List.length].
    repeat split; lia.
  - injection Hrun as <- <-. cbn in Hcs. rewrite <- !app_assoc in Hcs.
    apply app_inv_head in Hcs. subst cs.
    rewrite !forallb_app, !sends_app, !recvs_app, !closed_fds_app,
      Hon1, Hon2, Hr1, Hc1, Hs2, Hc2.
    cbn. rewrite Hsd, Z.eqb_refl, ?Nat.add_0_r, ?length_app.
    cbn [List.length]. repeat split; lia.
Qed.

(** The runs of [connect_to_peer], by the point at which it returns, with
    the handshake it ran. *)
Lemma connect_to_peer_inv (K : pmix_constants) (w : world) (st : state)
    (rc : pmix_status_t) (st' : state) :
  connect_to_peer K w st = Some (rc, st') ->
  (st' = st
   /\ (PMIX_PROC_IS_CLIENT w = false \/ getenv_PMIX_SERVER_URI w = None
       \/ exists evar, getenv_PMIX_SERVER_URI w = Some evar
                       /\ List.length (pmix_argv_split w evar) <> 3%nat))
  \/ exists evar uri0 uri1 uri2,
       PMIX_PROC_IS_CLIENT w = true
       /\ getenv_PMIX_SERVER_URI w = Some evar
       /\ pmix_argv_split w evar = [uri0; uri1; uri2]
       /\ let st1 := rendezvous K uri0 uri1 uri2 st in
          (access_R_OK w uri2 <> 0 /\ rc = PMIX_ERR_NOT_FOUND K /\ st' = st1)
          \/ (access_R_OK w uri2 = 0
              /\ exists rc0 fd,
                   pmix_ptl_base_connect w (connection st1) = (rc0, fd)
                   /\ ((rc0 <> PMIX_SUCCESS K /\ rc = rc0
                        /\ st' = add_call (Call_connect (connection st1)) st1)
                       \/ (rc0 = PMIX_SUCCESS K
                           /\ handshake K w fd
                                (opened (connection st1) fd st1)
                              = Some (rc, st')))).
Proof.
  intro Hrun.
  destruct (PMIX_PROC_IS_CLIENT w) eqn:Hc.
  2:{ rewrite (connect_to_peer_not_client K w st Hc) in Hrun.
      injection Hrun as <- <-. left. split; [reflexivity|now left]. }
  destruct (getenv_PMIX_SERVER_URI w) as [evar|] eqn:He.
  2:{ rewrite (connect_to_peer_no_descriptor K w st Hc He) in Hrun.
      injection Hrun as <- <-. left. split; [reflexivity|right; now left]. }
  destruct (pmix_argv_split w evar) as [|uri0 [|uri1 [|uri2 [|uri3 rest]]]]
    eqn:Hs.
  1-3,5: rewrite (connect_to_peer_malformed K w st evar Hc He) in Hrun
           by (rewrite Hs; discriminate);
         injection Hrun as <- <-; left; split; [reflexivity|];
         right; right; exists evar; split; [reflexivity|];
         rewrite Hs; discriminate.
  rewrite (connect_to_peer_eq K w st evar uri0 uri1 uri2 Hc He Hs) in Hrun.
  cbv zeta in Hrun.
  right. exists evar, uri0, uri1, uri2.
  split; [reflexivity|]. split; [reflexivity|]. split; [assumption|].
  cbv zeta.
  destruct (access_R_OK w uri2 =? 0) eqn:Ha; cbn [negb] in Hrun.
  2:{ injection Hrun as <- <-. apply Z.eqb_neq in Ha. left. now repeat split. }
  apply Z.eqb_eq in Ha. right. split; [assumption|].
  destruct (pmix_ptl_base_connect w _) as [rc0 fd] eqn:Hconn.
  exists rc0, fd. split; [reflexivity|].
  destruct (status_ne (PMIX_SUCCESS K) rc0) eqn:Hrc0.
  - injection Hrun as <- <-. apply status_ne_true in Hrc0.
    left. now repeat split.
  - apply status_ne_false in Hrc0. right. now split.
Qed.

(** ** Truncated copies *)

Lemma length_substring_0 (n : nat) (s : string) :
  String.length (String.substring 0 n s) = Nat.min n (String.length s).
Proof.
  revert n. induction s as [|c s IH]; intros [|n]; cbn; try reflexivity.
  now rewrite IH.
Qed.

Lemma substring_0_all (n : nat) (s : string) :
  (String.length s <= n)%nat -> String.substring 0 n s = s.
Proof.
  revert n. induction s as [|c s IH]; intros [|n] H; cbn in *;
    try reflexivity; try lia.
  rewrite IH by lia. reflexivity.
Qed.

Lemma substring_0_min (n : nat) (s : string) :
  String.substring 0 (Nat.min n (String.length s)) s = String.substring 0 n s.
Proof.
  revert n. induction s as [|c s IH]; intros [|n]; cbn; try reflexivity.
  now rewrite IH.
Qed.

Lemma connects_cons_app (a : sockaddr_un) (hs tl : list call) :
  connects (Call_connect a :: hs ++ tl) = a :: connects hs ++ connects tl.
Proof.
  unfold connects. cbn [flat_map app]. now rewrite flat_map_app.
Qed.

(** What a run that got past the field check has recorded, and where it
    connected. *)
Lemma connect_run_rendezvous (K : pmix_constants) (w : world) (st : state)
    (rc : pmix_status_t) (st' : state) (evar ns r p : string) :
  connect_run K w st rc st' ->
  PMIX_PROC_IS_CLIENT w = true ->
  getenv_PMIX_SERVER_URI w = Some evar ->
  pmix_argv_split w evar = [ns; r; p] ->
  connection st' = connection (rendezvous K ns r p st)
  /\ info (myserver st') = info (myserver (rendezvous K ns r p st))
  /\ forall cs, calls st' = calls st ++ cs ->
       connects cs = []
       \/ (connects cs = [connection st'] /\ access_R_OK w p = 0).
Proof.
  intros Hrun Hc He Hs.
  inversion Hrun; subst; try congruence.
  all: repeat match goal with
       | H1 : getenv_PMIX_SERVER_URI _ = Some _,
         H2 : getenv_PMIX_SERVER_URI _ = Some _ |- _ =>
           rewrite H1 in H2; injection H2 as <-
       | H1 : pmix_argv_split _ _ = [_; _; _],
         H2 : pmix_argv_split _ _ = [_; _; _] |- _ =>
           rewrite H1 in H2; injection H2 as <- <- <-
       | H1 : pmix_argv_split _ _ = [_; _; _],
         H2 : List.length (pmix_argv_split _ _) <> _ |- _ =>
           rewrite H1 in H2; now contradiction H2
       end.
  all: (split; [reflexivity|]); (split; [reflexivity|]).
  all: intros cs' Hcs; cbn in Hcs; rewrite <- ?app_assoc in Hcs;
    first [ apply app_eq_self_nil in Hcs | apply app_inv_head in Hcs ];
    subst cs'.
  - now left.
  - right. now split.
  - right. split; [|assumption].
    match goal with
    | H : forallb handshake_call _ = true |- _ =>
        destruct (handshake_calls_only _ H) as (_ & Hco & _)
    end.
    cbn [app]. now rewrite connects_cons_app, Hco.
  - right. split; [|assumption].
    match goal with
    | H : forallb handshake_call _ = true |- _ =>
        destruct (handshake_calls_only _ H) as (_ & Hco & _)
    end.
    cbn [app]. now rewrite connects_cons_app, Hco.
Qed.

(** The calls of a handshake, appended to those made before it. *)
Lemma handshake_appends (K : pmix_constants) (w : world) (fd : Z)
    (st : state) (rc : pmix_status_t) (st' : state) :
  handshake K w fd st = Some (rc, st') ->
  exists cs, calls st' = calls st ++ cs /\ connects cs = [].
Proof.
  intro Hrun.
  pose proof (handshake_effect K w fd st st eq_refl eq_refl) as Hh.
  rewrite Hrun in Hh.
  destruct Hh as (cs & index & Hall & _ & [(_ & -> & _)|(_ & -> & _)]);
    destruct (handshake_calls_only cs Hall) as (_ & Hco & _);
    eexists; (split; [cbn; rewrite <- ?app_assoc; reflexivity|]);
    unfold connects in *; rewrite flat_map_app, Hco; reflexivity.
Qed.

(** ** Decimal ranks *)

Lemma digits_prefix_acc (d : Decimal.uint) (p : positive) (any : bool) :
  digits_prefix (NilEmpty.string_of_uint d) (Zpos p) any
  = (Zpos (Pos.of_uint_acc d p),
     match d with
     | Decimal.Nil => any
     | _ => true
     end).
Proof.
  revert p any. induction d; intros p any;
    cbn [NilEmpty.string_of_uint Pos.of_uint_acc]; [reflexivity|..].
  all: cbn [digits_prefix]; change (isdigit _) with true; cbv iota.
  all: match goal with
       | |- digits_prefix _ ?a true = (Zpos (Pos.of_uint_acc _ ?q), _) =>
           replace a with (Zpos q)
             by (unfold digit_value; cbn [N_of_ascii N_of_digits Z.of_N];
                 lia)
       end.
  all: rewrite IHd; now destruct d.
Qed.

Lemma digits_prefix_of_uint (d : Decimal.uint) (any : bool) :
  digits_prefix (NilEmpty.string_of_uint d) 0 any
  = (Z.of_N (N.of_uint d),
     match d with
     | Decimal.Nil => any
     | _ => true
     end).
Proof.
  revert any. induction d; intro any;
    cbn [NilEmpty.string_of_uint N.of_uint Pos.of_uint]; [reflexivity|..].
  all: cbn [digits_prefix]; change (isdigit _) with true; cbv iota.
  1: { change (10 * 0 + digit_value "0") with 0. rewrite IHd.
       now destruct d. }
  all: match goal with
       | |- digits_prefix _ ?a true = _ =>
           let v := eval vm_compute in a in change a with v
       end.
  all: rewrite digits_prefix_acc; now destruct d.
Qed.

Lemma to_uint_not_nil (n : N) : N.to_uint n <> Decimal.Nil.
Proof.
  intro H. pose proof (DecimalN.Unsigned.of_to n) as Hn.
  rewrite H in Hn. cbn in Hn. subst n. discriminate H.
Qed.

(** A text that starts with a digit has no white space and no sign to
    skip. *)
Lemma digit_first (c : ascii) (s : string) :
  isdigit c = true ->
  strip_sign (skip_spaces (String c s)) = (false, String c s).
Proof.
  destruct c as [[|] [|] [|] [|] [|] [|] [|] [|]]; cbn; intro H;
    try discriminate H; reflexivity.
Qed.

Lemma string_of_uint_digit (d : Decimal.uint) :
  d <> Decimal.Nil ->
  exists c s, NilEmpty.string_of_uint d = String c s /\ isdigit c = true.
Proof.
  destruct d; intro H; [contradiction|..]; eexists _, _; split; reflexivity.
Qed.

Lemma strtoull_decimal (n : N) :
  strtoull (decimal n) = Z.min (Z.of_N n) ULLONG_MAX.
Proof.
  unfold strtoull, decimal.
  destruct (string_of_uint_digit (N.to_uint n) (to_uint_not_nil n))
    as (c & s & Hs & Hc).
  rewrite Hs, (digit_first c s Hc), <- Hs, digits_prefix_of_uint.
  rewrite DecimalN.Unsigned.of_to.
  destruct (N.to_uint n) eqn:Hd; [now apply to_uint_not_nil in Hd|..].
  all: cbn [negb]; destruct (ULLONG_MAX <? Z.of_N n) eqn:Hmax;
    [apply Z.ltb_lt in Hmax|apply Z.ltb_ge in Hmax]; lia.
Qed.

(** ** The acknowledgment that fails *)

Lemma recv_connect_ack_status_read (K : pmix_constants) (w : world) (fd : Z)
    (st : state) (pre : list call) :
  timeout_phase_passed K w fd pre ->
  let read := pre ++ [Call_recv_blocking fd sizeof_int] in
  (fst (recv_blocking_status w) <> PMIX_SUCCESS K ->
   recv_connect_ack K w fd st
   = Some (fst (recv_blocking_status w), after_handshake read None st))
  /\ (fst (recv_blocking_status w) = PMIX_SUCCESS K ->
      snd (recv_blocking_status w) <> PMIX_ERR_READY_FOR_HANDSHAKE K ->
      snd (recv_blocking_status w) <> PMIX_SUCCESS K ->
      recv_connect_ack K w fd st
      = Some (snd (recv_blocking_status w), after_handshake read None st)).
Proof.
  intros Hpre read. subst read.
  unfold recv_connect_ack. unfold_stmt.
  destruct (recv_blocking_status w) as [rc1 reply]. cbn [fst snd].
  destruct Hpre as [[Hg ->]|(save & sz & Hg & Hs & ->)];
    rewrite Hg, ?Hs, ?Z.eqb_refl; cbn [negb Z.eqb].
  all: split.
  all: try (intro Hrc; rewrite (status_ne_neq _ _ Hrc); f_equal; f_equal;
            apply state_eq; cbn; rewrite <- ?app_assoc; reflexivity).
  all: intros -> Hr Hh; rewrite status_ne_refl;
    apply Z.eqb_neq in Hr; rewrite Hr, (status_ne_neq _ _ Hh);
    f_equal; f_equal; apply state_eq; cbn; rewrite <- ?app_assoc;
    reflexivity.
Qed.

(** ** Signed numbers with text after them *)

Lemma digits_prefix_stop (rest : string) (acc : Z) (any : bool) :
  no_digit_first rest = true -> digits_prefix rest acc any = (acc, any).
Proof.
  destruct rest as [|c rest]; [reflexivity|].
  cbn [no_digit_first digits_prefix]. intro H.
  apply negb_true_iff in H. now rewrite H.
Qed.

Lemma digits_prefix_acc_rest (d : Decimal.uint) (rest : string) (p : positive)
    (any : bool) :
  no_digit_first rest = true ->
  digits_prefix (NilEmpty.string_of_uint d ++ rest)%string (Zpos p) any
  = (Zpos (Pos.of_uint_acc d p),
     match d with
     | Decimal.Nil => any
     | _ => true
     end).
Proof.
  intro Hrest. revert p any. induction d; intros p any;
    cbn [NilEmpty.string_of_uint Pos.of_uint_acc String.append];
    [now apply digits_prefix_stop|..].
  all: cbn [digits_prefix]; change (isdigit _) with true; cbv iota.
  all: match goal with
       | |- digits_prefix _ ?a true = (Zpos (Pos.of_uint_acc _ ?q), _) =>
           replace a with (Zpos q)
             by (unfold digit_value; cbn [N_of_ascii N_of_digits Z.of_N];
                 lia)
       end.
  all: rewrite IHd; now destruct d.
Qed.

Lemma digits_prefix_of_uint_rest (d : Decimal.uint) (rest : string)
    (any : bool) :
  no_digit_first rest = true ->
  digits_prefix (NilEmpty.string_of_uint d ++ rest)%string 0 any
  = (Z.of_N (N.of_uint d),
     match d with
     | Decimal.Nil => any
     | _ => true
     end).
Proof.
  intro Hrest. revert any. induction d; intro any;
    cbn [NilEmpty.string_of_uint N.of_uint Pos.of_uint String.append];
    [now apply digits_prefix_stop|..].
  all: cbn [digits_prefix]; change (isdigit _) with true; cbv iota.
  1: { change (10 * 0 + digit_value "0") with 0. rewrite IHd.
       now destruct d. }
  all: match goal with
       | |- digits_prefix _ ?a true = _ =>
           let v := eval vm_compute in a in change a with v
       end.
  all: rewrite digits_prefix_acc_rest by assumption; now destruct d.
Qed.

Lemma skip_spaces_app (ws s : string) :
  all_spaces ws = true -> skip_spaces (ws ++ s)%string = skip_spaces s.
Proof.
  unfold all_spaces, chars. induction ws as [|c ws IH]; [reflexivity|].
  cbn [list_ascii_of_string forallb String.append skip_spaces]. intro H.
  apply andb_true_iff in H. destruct H as [Hc Hws].
  rewrite Hc. now apply IH.
Qed.

(** White space, a sign or none, and the digits: what is stripped. *)
Lemma strip_sign_number (ws sign : string) (d : Decimal.uint) (rest : string) :
  all_spaces ws = true ->
  sign = "" \/ sign = "+" \/ sign = "-" ->
  d <> Decimal.Nil ->
  strip_sign
    (skip_spaces (ws ++ sign ++ NilEmpty.string_of_uint d ++ rest)%string)
  = (String.eqb sign "-", (NilEmpty.string_of_uint d ++ rest)%string).
Proof.
  intros Hws Hsign Hd. rewrite (skip_spaces_app ws _ Hws).
  destruct Hsign as [-> | [-> | ->]]; cbn [String.append]; try reflexivity.
  destruct (string_of_uint_digit d Hd) as (c & s & Hs & Hc).
  rewrite Hs. cbn [String.append]. now apply digit_first.
Qed.

Lemma rank_of_ull_strtoull (ws sign : string) (d : Decimal.uint)
    (rest : string) :
  all_spaces ws = true ->
  sign = "" \/ sign = "+" \/ sign = "-" ->
  d <> Decimal.Nil ->
  no_digit_first rest = true ->
  rank_of_ull
    (strtoull (ws ++ sign ++ NilEmpty.string_of_uint d ++ rest)%string)
  = rank_of_number (String.eqb sign "-") (Z.of_N (N.of_uint d)).
Proof.
  intros Hws Hsign Hd Hrest. unfold strtoull.
  rewrite (strip_sign_number ws sign d rest Hws Hsign Hd).
  rewrite (digits_prefix_of_uint_rest d rest false Hrest).
  destruct d; [contradiction|..]; cbn [negb].
  all: unfold rank_of_number, rank_of_ull, ULLONG_MAX, UINT32_MAX.
  all: match goal with
       | |- context [Z.of_N ?n] =>
           generalize (N2Z.is_nonneg n); generalize (Z.of_N n)
       end; intros v Hv.
  all: destruct (2 ^ 64 - 1 <? v) eqn:Hmax; [reflexivity|].
  all: apply Z.ltb_ge in Hmax.
  all: destruct (sign =? "-")%string; [|reflexivity].
  all: rewrite (Z.mod_mod_divide (2 ^ 64 - v) (2 ^ 64) (2 ^ 32))
         by (now exists (2 ^ 32)).
  all: replace (2 ^ 64 - v) with (- v + 2 ^ 32 * 2 ^ 32) by lia.
  all: now rewrite Z_mod_plus_full.
Qed.

(** * The claims *)

(** ** The connect message *)




(** ** The acknowledgment *)

(** C3.  Once the status was read: the ready-for-handshake sentinel makes
    [recv_connect_ack] call [client_handshake], whose failure is returned
    as it is, with the index neither read nor stored, and whose success
    leads to the read of the index; any other status that is not success is
    returned verbatim, with no handshake and the index neither read nor
    stored; success leads to the read of the index without a handshake.
    The index read is stored in [pmix_globals.pindex]. *)
Theorem recv_connect_ack_status (K : pmix_constants) (w : world) (fd : Z)
    (st : state) (pre : list call) (reply : Z) :
  timeout_phase_passed K w fd pre ->
  recv_blocking_status w = (PMIX_SUCCESS K, reply) ->
  let read := pre ++ [Call_recv_blocking fd sizeof_int] in
  let shake := Call_client_handshake (sd (myserver st)) fd in
  let read_index := Call_recv_blocking fd sizeof_int in
  let index := snd (recv_blocking_pindex w) in
  (reply = PMIX_ERR_READY_FOR_HANDSHAKE K ->
   client_handshake w <> PMIX_SUCCESS K ->
   recv_connect_ack K w fd st
   = Some (client_handshake w, after_handshake (read ++ [shake]) None st))
  /\ (reply = PMIX_ERR_READY_FOR_HANDSHAKE K ->
      client_handshake w = PMIX_SUCCESS K ->
      exists rc post,
        recv_connect_ack K w fd st
        = Some (rc, after_handshake (read ++ shake :: read_index :: post)
                      (Some index) st)
        /\ (post = [] \/ exists save sz, post = [Call_setsockopt fd save sz]))
  /\ (reply <> PMIX_ERR_READY_FOR_HANDSHAKE K ->
      reply <> PMIX_SUCCESS K ->
      recv_connect_ack K w fd st = Some (reply, after_handshake read None st))
  /\ (reply <> PMIX_ERR_READY_FOR_HANDSHAKE K ->
      reply = PMIX_SUCCESS K ->
      exists rc post,
        recv_connect_ack K w fd st
        = Some (rc, after_handshake (read ++ read_index :: post)
                      (Some index) st)
        /\ (post = [] \/ exists save sz, post = [Call_setsockopt fd save sz])).
Proof.
  intros Hpre Hread read shake read_index index. subst read shake read_index index.
  unfold recv_connect_ack. unfold_stmt.
  destruct Hpre as [[Hg ->]|(save & sz & Hg & Hs & ->)];
    rewrite Hg, ?Hs, ?Z.eqb_refl, Hread, status_ne_refl; cbn [negb Z.eqb].
  all: repeat split.
  all: intros Hr Hh.
  all: try (subst reply; rewrite Z.eqb_refl).
  all: try (apply Z.eqb_neq in Hr; rewrite Hr).
  all: try (rewrite (status_ne_neq _ _ Hh)).
  all: try (rewrite Hh, status_ne_refl).
  all: try (f_equal; f_equal; apply state_eq; cbn; rewrite <- ?app_assoc;
            reflexivity).
  all: destruct (recv_blocking_pindex w) as [rc2 idx]; cbn [snd].
  all: split_branches.
  all: eexists _, _.
  all: (split; [f_equal; f_equal; apply state_eq; cbn; rewrite <- ?app_assoc;
                reflexivity|]).
  all: first [left; reflexivity | right; eexists _, _; reflexivity].
Qed.


Lemma recv_connect_ack_status_witness :
  let K := linux_constants in
  let d := "job1:0:/tmp/pmix.sock" in
  let pre := [Call_getsockopt 7;
              Call_setsockopt 7 {| tv_sec := 2; tv_usec := 0 |} 16;
              Call_recv_blocking 7 4] in
  let w1 := with_client_handshake (-13) (daemon d 7 None 0 (-14) 5) in
  let w2 := daemon d 7 None 0 (-14) 5 in
  let w3 := daemon d 7 None 0 (-25) 5 in
  let w4 := daemon d 7 None 0 0 5 in
  recv_connect_ack K w1 7 fresh_state
  = Some (-13, after_handshake (pre ++ [Call_client_handshake (-1) 7]) None
                 fresh_state)
  /\ (exists rc post,
        recv_connect_ack K w2 7 fresh_state
        = Some (rc, after_handshake
                      (pre ++ Call_client_handshake (-1) 7
                           :: Call_recv_blocking 7 4 :: post)
                      (Some 5) fresh_state)
        /\ (post = [] \/ exists save sz, post = [Call_setsockopt 7 save sz]))
  /\ recv_connect_ack K w3 7 fresh_state
     = Some (-25, after_handshake pre None fresh_state)
  /\ (exists rc post,
        recv_connect_ack K w4 7 fresh_state
        = Some (rc, after_handshake (pre ++ Call_recv_blocking 7 4 :: post)
                      (Some 5) fresh_state)
        /\ (post = [] \/ exists save sz, post = [Call_setsockopt 7 save sz])).
Proof.
  intros K d pre w1 w2 w3 w4.
  assert (Hpre : forall w, getsockopt_SO_RCVTIMEO w 7
                           = Getsockopt_ok {| tv_sec := 0; tv_usec := 0 |} 16 ->
                           setsockopt_timeout w = 0 ->
                           timeout_phase_passed K w 7
                             [Call_getsockopt 7;
                              Call_setsockopt 7 {| tv_sec := 2; tv_usec := 0 |}
                                sizeof_timeval]).
  { intros w Hg Hs. right. eexists _, _. repeat split; eassumption. }
  split; [|split; [|split]].
  - apply (proj1 (recv_connect_ack_status K w1 7 fresh_state _ (-14)
                    (Hpre w1 eq_refl eq_refl) eq_refl));
      [reflexivity | discriminate].
  - apply (proj1 (proj2 (recv_connect_ack_status K w2 7 fresh_state _ (-14)
                           (Hpre w2 eq_refl eq_refl) eq_refl)));
      reflexivity.
  - apply (proj1 (proj2 (proj2 (recv_connect_ack_status K w3 7 fresh_state _
                                  (-25) (Hpre w3 eq_refl eq_refl) eq_refl))));
      discriminate.
  - apply (proj2 (proj2 (proj2 (recv_connect_ack_status K w4 7 fresh_state _
                                  0 (Hpre w4 eq_refl eq_refl) eq_refl))));
      [discriminate | reflexivity].
Defined.

(** C5.  When the transport answers the query of the receive timeout,
    the 2-second timeout is set right after the query, before anything is
    read.  When the query fails, whatever the [errno], no timeout is set
    in the run; when it fails with [ENOPROTOOPT] the function does not
    return on that account but goes on to read the status, and with a
    daemon that accepts it returns success.  And with a supported timeout,
    once the index was read successfully, the last call puts the saved
    setting back, with the length the query reported. *)
Theorem recv_connect_ack_timeout (K : pmix_constants) (w : world) (fd : Z)
    (st : state) :
  PMIX_ERR_READY_FOR_HANDSHAKE K <> PMIX_SUCCESS K ->
  (forall save sz,
     getsockopt_SO_RCVTIMEO w fd = Getsockopt_ok save sz ->
     exists rc st' rest,
       recv_connect_ack K w fd st = Some (rc, st')
       /\ calls st' = calls st
                      ++ Call_getsockopt fd
                         :: Call_setsockopt fd {| tv_sec := 2; tv_usec := 0 |}
                              sizeof_timeval
                         :: rest)
  /\ (forall errno,
        getsockopt_SO_RCVTIMEO w fd = Getsockopt_failed errno ->
        exists rc st' cs,
          recv_connect_ack K w fd st = Some (rc, st')
          /\ calls st' = calls st ++ cs
          /\ setsockopts cs = [])
  /\ (getsockopt_SO_RCVTIMEO w fd = Getsockopt_failed (ENOPROTOOPT K) ->
      exists rc st' rest,
        recv_connect_ack K w fd st = Some (rc, st')
        /\ calls st' = calls st
                       ++ Call_getsockopt fd
                          :: Call_recv_blocking fd sizeof_int :: rest
        /\ (recv_blocking_status w = (PMIX_SUCCESS K, PMIX_SUCCESS K) ->
            fst (recv_blocking_pindex w) = PMIX_SUCCESS K ->
            rc = PMIX_SUCCESS K))
  /\ (forall save sz reply index,
        getsockopt_SO_RCVTIMEO w fd = Getsockopt_ok save sz ->
        setsockopt_timeout w = 0 ->
        recv_blocking_status w = (PMIX_SUCCESS K, reply) ->
        reply = PMIX_SUCCESS K
        \/ (reply = PMIX_ERR_READY_FOR_HANDSHAKE K
            /\ client_handshake w = PMIX_SUCCESS K) ->
        recv_blocking_pindex w = (PMIX_SUCCESS K, index) ->
        exists st' cs,
          recv_connect_ack K w fd st
          = Some (if setsockopt_restore w =? 0 then PMIX_SUCCESS K
                  else PMIX_ERR_UNREACH K, st')
          /\ globals_pindex st' = index
          /\ calls st' = calls st
                         ++ cs ++ [Call_recv_blocking fd sizeof_int;
                                   Call_setsockopt fd save sz]).
Proof.
  intro Hne. split; [|split; [|split]].
  - intros save sz Hg. unfold recv_connect_ack. unfold_stmt. rewrite Hg.
    split_branches.
    all: eexists _, _, _; (split; [reflexivity|]);
      cbn; rewrite <- ?app_assoc; reflexivity.
  - intros errno Hg. unfold recv_connect_ack. unfold_stmt. rewrite Hg.
    destruct (recv_blocking_status w) as [rc1 reply].
    destruct (recv_blocking_pindex w) as [rc2 idx].
    split_branches.
    all: eexists _, _, _; (split; [reflexivity|]).
    all: cbn [calls add_call set_globals_pindex]; rewrite <- ?app_assoc;
      (split; [reflexivity|]); reflexivity.
  - intro Hg. unfold recv_connect_ack. unfold_stmt.
    rewrite Hg, Z.eqb_refl.
    destruct (recv_blocking_status w) as [rc1 reply].
    destruct (recv_blocking_pindex w) as [rc2 idx].
    split_branches.
    all: eexists _, _, _; (split; [reflexivity|]).
    all: (split; [cbn; rewrite <- ?app_assoc; reflexivity|]).
    all: cbn [fst]; intros [= -> ->] ->; try reflexivity.
    all: rewrite ?status_ne_refl in *; try discriminate.
    all: match goal with
         | H : (_ =? _) = true |- _ => apply Z.eqb_eq in H; congruence
         end.
  - intros save sz reply index Hg Hs Hread Hreply Hindex.
    unfold recv_connect_ack. unfold_stmt.
    rewrite Hg, Hs, Hread, Hindex, status_ne_refl. cbn [negb Z.eqb].
    assert (Hne' : (PMIX_SUCCESS K =? PMIX_ERR_READY_FOR_HANDSHAKE K) = false)
      by (apply Z.eqb_neq; congruence).
    destruct Hreply as [->|[-> Hh]];
      rewrite ?Hne', ?Z.eqb_refl, ?Hh, ?status_ne_refl.
    all: destruct (setsockopt_restore w =? 0); cbn [negb].
    1,2: eexists _, [Call_getsockopt fd; _; _].
    3,4: eexists _, [Call_getsockopt fd; _; _; _].
    all: (split; [reflexivity|]); (split; [reflexivity|]).
    all: cbn; rewrite <- ?app_assoc; reflexivity.
Qed.

Lemma recv_connect_ack_timeout_witness :
  let K := linux_constants in
  let w := accepting in
  (exists rc st' rest,
     recv_connect_ack K w 7 fresh_state = Some (rc, st')
     /\ calls st' = calls fresh_state
                    ++ Call_getsockopt 7
                       :: Call_setsockopt 7 {| tv_sec := 2; tv_usec := 0 |}
                            sizeof_timeval
                       :: rest)
  /\ (exists rc st' cs,
        recv_connect_ack K (without_sockopt 1 w) 7 fresh_state
        = Some (rc, st')
        /\ calls st' = calls fresh_state ++ cs
        /\ setsockopts cs = [])
  /\ (exists rc st' rest,
        recv_connect_ack K (without_sockopt 92 w) 7 fresh_state
        = Some (rc, st')
        /\ calls st' = calls fresh_state
                       ++ Call_getsockopt 7
                          :: Call_recv_blocking 7 sizeof_int :: rest
        /\ (recv_blocking_status (without_sockopt 92 w)
            = (PMIX_SUCCESS K, PMIX_SUCCESS K) ->
            fst (recv_blocking_pindex (without_sockopt 92 w))
            = PMIX_SUCCESS K ->
            rc = PMIX_SUCCESS K))
  /\ (exists st' cs,
        recv_connect_ack K w 7 fresh_state
        = Some (if setsockopt_restore w =? 0 then PMIX_SUCCESS K
                else PMIX_ERR_UNREACH K, st')
        /\ globals_pindex st' = 5
        /\ calls st' = calls fresh_state
                       ++ cs ++ [Call_recv_blocking 7 sizeof_int;
                                 Call_setsockopt 7
                                   {| tv_sec := 0; tv_usec := 0 |} 16]).
Proof.
  intros K w.
  assert (Hne : PMIX_ERR_READY_FOR_HANDSHAKE K <> PMIX_SUCCESS K)
    by discriminate.
  split; [|split; [|split]].
  - apply (proj1 (recv_connect_ack_timeout K w 7 fresh_state Hne)
             {| tv_sec := 0; tv_usec := 0 |} 16).
    reflexivity.
  - apply (proj1 (proj2 (recv_connect_ack_timeout K (without_sockopt 1 w) 7
                           fresh_state Hne))
             1).
    reflexivity.
  - apply (proj1 (proj2 (proj2 (recv_connect_ack_timeout K
                                  (without_sockopt 92 w) 7 fresh_state Hne)))).
    reflexivity.
  - apply (proj2 (proj2 (proj2 (recv_connect_ack_timeout K w 7 fresh_state
                                  Hne)))
             {| tv_sec := 0; tv_usec := 0 |} 16 0 5);
      try reflexivity.
    left. reflexivity.
Defined.

(** ** Failure after the socket was opened *)

(** C4.  In a run of [connect_to_peer] that fails after it opened a socket
    (its connect call is in the log and returned success with the
    descriptor [fd]), the calls of the run close [fd] once and close
    nothing else, the close is the last call, and the established flag is
    what it was. *)
Theorem connect_to_peer_failure_closes (K : pmix_constants) (w : world)
    (st : state) (rc : pmix_status_t) (st' : state) (cs : list call)
    (addr : sockaddr_un) (fd : Z) :
  connect_to_peer K w st = Some (rc, st') ->
  rc <> PMIX_SUCCESS K ->
  calls st' = calls st ++ cs ->
  In (Call_connect addr) cs ->
  pmix_ptl_base_connect w addr = (PMIX_SUCCESS K, fd) ->
  closed_fds cs = [fd]
  /\ (exists cs', cs = cs' ++ [Call_close fd])
  /\ connected st' = connected st.
Proof.
  intros Hrun Hrc Hcalls Hin Hconn.
  apply connect_to_peer_run in Hrun.
  apply in_connects in Hin.
  destruct (connect_run_calls K w st rc st' cs Hrun Hcalls)
    as [(-> & _)|[(-> & _)|[(a & fd' & -> & _ & Hc & _)
       |[(a & fd' & hs & -> & _ & Hc & Hall & _ & _ & Hflag)
        |(a & fd' & hs & _ & -> & _)]]]];
    try contradiction.
  - cbn in Hin. destruct Hin as [<-|[]]. congruence.
  - destruct (handshake_calls_only hs Hall) as (Hcl & Hco & _).
    unfold connects, closed_fds in *.
    cbn [flat_map] in *. rewrite flat_map_app in *.
    rewrite Hco in Hin. rewrite Hcl. cbn in Hin. cbn.
    destruct Hin as [<-|[]].
    assert (fd' = fd) by congruence. subst fd'.
    repeat split; [|assumption].
    now exists (Call_connect a :: hs).
Qed.

(** C10.  In such a run the descriptor is in the server peer when the
    handshake starts (its first call, for the credential, is made with a
    server peer whose [sd] is [fd]); the run ends with the close of [fd],
    and the server peer of the state it leaves still holds [fd]. *)
Theorem connect_to_peer_failure_keeps_sd (K : pmix_constants) (w : world)
    (st : state) (rc : pmix_status_t) (st' : state) (cs : list call)
    (addr : sockaddr_un) (fd : Z) :
  connect_to_peer K w st = Some (rc, st') ->
  rc <> PMIX_SUCCESS K ->
  calls st' = calls st ++ cs ->
  In (Call_connect addr) cs ->
  pmix_ptl_base_connect w addr = (PMIX_SUCCESS K, fd) ->
  (exists hs, cs = Call_connect addr :: Call_create_cred fd :: hs
                   ++ [Call_close fd])
  /\ sd (myserver st') = fd.
Proof.
  intros Hrun Hrc Hcalls Hin Hconn.
  apply connect_to_peer_run in Hrun.
  apply in_connects in Hin.
  destruct (connect_run_calls K w st rc st' cs Hrun Hcalls)
    as [(-> & _)|[(-> & _)|[(a & fd' & -> & _ & Hc & _)
       |[(a & fd' & hs & -> & _ & Hc & Hall & Hhd & Hsd & _)
        |(a & fd' & hs & _ & -> & _)]]]];
    try contradiction.
  - cbn in Hin. destruct Hin as [<-|[]]. congruence.
  - destruct (handshake_calls_only hs Hall) as (_ & Hco & _).
    unfold connects in *.
    cbn [flat_map] in *. rewrite flat_map_app in *.
    rewrite Hco in Hin. cbn in Hin.
    destruct Hin as [<-|[]].
    assert (Hfd : fd' = fd) by congruence.
    rewrite Hfd in *.
    split; [|assumption].
    destruct hs as [|c hs]; [discriminate|].
    injection Hhd as ->. now exists hs.
Qed.

(** ** Success *)

(** C8.  A run of [connect_to_peer] that returns success leaves the
    established flag set; its last four calls switch the socket of the
    server peer to non-blocking mode, assign the persistent read event, add
    it to the event loop and assign the persistent write event, all on that
    socket; the read event is the only event the run adds; and the server
    peer has [recv_ev_active] true and [send_ev_active] false. *)
Theorem connect_to_peer_success (K : pmix_constants) (w : world)
    (st st' : state) :
  errors_are_failures K ->
  connect_to_peer K w st = Some (PMIX_SUCCESS K, st') ->
  let fd := sd (myserver st') in
  connected st' = true
  /\ recv_event (myserver st') = Some (read_event fd)
  /\ recv_ev_active (myserver st') = true
  /\ send_event (myserver st') = Some (write_event fd)
  /\ send_ev_active (myserver st') = false
  /\ exists pre,
       calls st' = calls st ++ pre
                   ++ [Call_set_nonblocking fd;
                       Call_event_assign Recv_event (read_event fd);
                       Call_event_add Recv_event (Some (read_event fd));
                       Call_event_assign Send_event (write_event fd)]
       /\ event_adds pre = [].
Proof.
  intros HK Hrun fd. subst fd.
  destruct HK as (H1 & H2 & H3 & H4 & H5 & H6).
  apply connect_to_peer_run in Hrun.
  assert (Hcalls : exists cs, calls st' = calls st ++ cs).
  { inversion Hrun; subst; cbn; rewrite <- ?app_assoc;
      try (now exists []; rewrite app_nil_r); eexists; reflexivity. }
  destruct Hcalls as [cs Hcalls].
  destruct (connect_run_calls K w st _ st' cs Hrun Hcalls)
    as [(_ & _ & [E|[E|E]])|[(_ & _ & _ & E)|[(a & fd' & _ & E & _)
       |[(a & fd' & hs & _ & E & _)
        |(a & fd' & hs & -> & _ & _ & Hall & _ & Hc & Hsd & Hre & Hra & Hse
          & Hsa)]]]];
    try congruence.
  rewrite Hsd. repeat split; try assumption.
  exists (Call_connect a :: hs). split.
  - rewrite Hcalls. now rewrite <- app_comm_cons.
  - destruct (handshake_calls_only hs Hall) as (_ & _ & Hev & _).
    unfold event_adds in *. cbn [flat_map]. now rewrite Hev.
Qed.

(** ** Preconditions *)

(** C6.  [connect_to_peer] checks, in this order and before any socket is
    opened: that the process is a client (else [PMIX_ERR_NOT_SUPPORTED]),
    that the environment holds the descriptor (else
    [PMIX_ERR_SERVER_NOT_AVAIL]), that the descriptor splits into exactly
    3 fields (else [PMIX_ERROR]), and that its path is readable (else
    [PMIX_ERR_NOT_FOUND]).  The first three leave the state as it was; the
    last one has recorded the rendezvous but made no call: no socket was
    opened. *)
Theorem connect_to_peer_preconditions (K : pmix_constants) (w : world)
    (st : state) :
  (PMIX_PROC_IS_CLIENT w = false ->
   connect_to_peer K w st = Some (PMIX_ERR_NOT_SUPPORTED K, st))
  /\ (PMIX_PROC_IS_CLIENT w = true ->
      getenv_PMIX_SERVER_URI w = None ->
      connect_to_peer K w st = Some (PMIX_ERR_SERVER_NOT_AVAIL K, st))
  /\ (forall evar,
        PMIX_PROC_IS_CLIENT w = true ->
        getenv_PMIX_SERVER_URI w = Some evar ->
        List.length (pmix_argv_split w evar) <> 3%nat ->
        connect_to_peer K w st = Some (PMIX_ERROR K, st))
  /\ (forall evar uri0 uri1 uri2,
        PMIX_PROC_IS_CLIENT w = true ->
        getenv_PMIX_SERVER_URI w = Some evar ->
        pmix_argv_split w evar = [uri0; uri1; uri2] ->
        access_R_OK w uri2 <> 0 ->
        exists st',
          connect_to_peer K w st = Some (PMIX_ERR_NOT_FOUND K, st')
          /\ calls st' = calls st
          /\ sd (myserver st') = sd (myserver st)
          /\ connected st' = connected st).
Proof.
  split; [|split; [|split]].
  - apply connect_to_peer_not_client.
  - apply connect_to_peer_no_descriptor.
  - intro evar. apply connect_to_peer_malformed.
  - intros evar uri0 uri1 uri2 Hc He Hs Ha.
    rewrite (connect_to_peer_eq K w st evar uri0 uri1 uri2 Hc He Hs).
    cbv zeta. apply Z.eqb_neq in Ha. rewrite Ha. cbn [negb].
    eexists. now repeat split.
Qed.

(** ** The established flag *)


(** ** Submission *)

(** C9.  [send_recv] and [send_oneway] return [PMIX_SUCCESS] for every
    peer, buffer, callback and tag, in every state: each adds one to the
    reference count of the peer and hands one request, holding the
    arguments, to the event base. *)
Theorem submission_always_succeeds (K : pmix_constants) :
  (forall peer bfr cbfunc cbdata st,
     exists st',
       send_recv K peer bfr cbfunc cbdata st = Some (PMIX_SUCCESS K, st')
       /\ refcount st' peer = S (refcount st peer)
       /\ event_queue st'
          = event_queue st
            ++ [Shift_send_recv {| sr_peer := peer; sr_bfr := bfr;
                                   sr_cbfunc := cbfunc;
                                   sr_cbdata := cbdata |}])
  /\ (forall peer bfr tag st,
        exists st',
          send_oneway K peer bfr tag st = Some (PMIX_SUCCESS K, st')
          /\ refcount st' peer = S (refcount st peer)
          /\ event_queue st'
             = event_queue st
               ++ [Shift_send {| q_peer := peer; q_buf := bfr;
                                 q_tag := tag |}]).
Proof.
  split; intros; eexists; (split; [reflexivity|]); cbn;
    now rewrite Nat.eqb_refl.
Qed.

(** ** The rank in the descriptor *)

(** C7, as amended.  With a three-field descriptor, every run of
    [connect_to_peer] that gets past the client test leaves as server rank
    what [strtoull] reads at the start of the second field, reduced to 32
    bits.  That is 0 when the field, after white space and an optional
    sign, does not start with a digit.  When the field is white space, a
    sign or none, the decimal digits of a number and then text that does
    not go on with a digit, it is that number reduced to 32 bits, its
    opposite reduced to 32 bits after a minus sign, and 2^32 - 1 when the
    number exceeds [ULLONG_MAX].  And the field has no part in the status
    returned: with any other second field the status is the same. *)
Theorem connect_to_peer_rank (K : pmix_constants) (w : world) (st : state)
    (evar ns r p : string) :
  PMIX_PROC_IS_CLIENT w = true ->
  getenv_PMIX_SERVER_URI w = Some evar ->
  pmix_argv_split w evar = [ns; r; p] ->
  (forall rc st',
     connect_to_peer K w st = Some (rc, st') ->
     server_rank st' = Some (rank_of_ull (strtoull r))
     /\ (starts_with_digit r = false -> server_rank st' = Some 0)
     /\ (forall ws sign d rest,
           r = (ws ++ sign ++ NilEmpty.string_of_uint d ++ rest)%string ->
           all_spaces ws = true ->
           sign = "" \/ sign = "+" \/ sign = "-" ->
           d <> Decimal.Nil ->
           no_digit_first rest = true ->
           server_rank st'
           = Some (rank_of_number (String.eqb sign "-")
                     (Z.of_N (N.of_uint d)))))
  /\ (forall r',
        option_map fst (connect_to_peer K (with_fields [ns; r'; p] w) st)
        = option_map fst (connect_to_peer K w st)).
Proof.
  intros Hc He Hs. split.
  - intros rc st' Hrun. apply connect_to_peer_run in Hrun.
    pose proof (connect_run_rank K w st rc st' evar ns r p Hrun Hc He Hs)
      as Hrank.
    split; [exact Hrank|]. split.
    + intro H. now rewrite Hrank, strtoull_no_digit.
    + intros ws sign d rest -> Hws Hsign Hd Hrest.
      now rewrite Hrank, rank_of_ull_strtoull.
  - intro r'.
    rewrite (connect_to_peer_eq K w st evar ns r p Hc He Hs).
    rewrite (connect_to_peer_eq K (with_fields [ns; r'; p] w) st evar ns r' p
               Hc He eq_refl).
    cbv zeta. cbn [access_R_OK pmix_ptl_base_connect with_fields].
    destruct (access_R_OK w p =? 0); cbn [negb]; [|reflexivity].
    change (connection (rendezvous K ns r' p st))
      with (connection (rendezvous K ns r p st)).
    destruct (pmix_ptl_base_connect w _) as [rc fd].
    destruct (status_ne (PMIX_SUCCESS K) rc); [reflexivity|].
    rewrite handshake_with_fields.
    match goal with
    | |- option_map fst (handshake _ _ _ ?s2)
         = option_map fst (handshake _ _ _ ?s1) =>
        pose proof (handshake_effect K w fd s1 s2 eq_refl eq_refl) as Hh;
        destruct (handshake K w fd s1) as [[rc1 st1]|]
    end.
    2:{ now rewrite Hh. }
    destruct Hh as (cs & index & _ & _ & [(_ & -> & ->)|(_ & -> & ->)]);
      reflexivity.
Qed.

(** ** The theorems at work on concrete runs *)

Lemma linux_errors_are_failures : errors_are_failures linux_constants.
Proof. repeat split; discriminate. Defined.

Lemma connect_to_peer_failure_closes_witness :
  closed_fds (calls refused_state) = [7]
  /\ (exists cs', calls refused_state = cs' ++ [Call_close 7])
  /\ connected refused_state = connected fresh_state.
Proof.
  apply (connect_to_peer_failure_closes linux_constants refusing fresh_state
           (-25) refused_state (calls refused_state)
           {| sun_family := 1; sun_path := "/tmp/pmix.sock" |} 7).
  - vm_compute. reflexivity.
  - discriminate.
  - reflexivity.
  - vm_compute. left. reflexivity.
  - reflexivity.
Defined.

Lemma connect_to_peer_failure_keeps_sd_witness :
  (exists hs, calls refused_state
              = Call_connect {| sun_family := 1; sun_path := "/tmp/pmix.sock" |}
                :: Call_create_cred 7 :: hs ++ [Call_close 7])
  /\ sd (myserver refused_state) = 7.
Proof.
  apply (connect_to_peer_failure_keeps_sd linux_constants refusing fresh_state
           (-25) refused_state (calls refused_state)
           {| sun_family := 1; sun_path := "/tmp/pmix.sock" |} 7).
  - vm_compute. reflexivity.
  - discriminate.
  - reflexivity.
  - vm_compute. left. reflexivity.
  - reflexivity.
Defined.

Lemma connect_to_peer_success_witness :
  connected established_state = true
  /\ recv_event (myserver established_state) = Some (read_event 7)
  /\ recv_ev_active (myserver established_state) = true
  /\ send_event (myserver established_state) = Some (write_event 7)
  /\ send_ev_active (myserver established_state) = false
  /\ exists pre,
       calls established_state
       = calls fresh_state ++ pre
         ++ [Call_set_nonblocking 7;
             Call_event_assign Recv_event (read_event 7);
             Call_event_add Recv_event (Some (read_event 7));
             Call_event_assign Send_event (write_event 7)]
       /\ event_adds pre = [].
Proof.
  apply (connect_to_peer_success linux_constants accepting fresh_state
           established_state linux_errors_are_failures).
  vm_compute. reflexivity.
Defined.

Lemma connect_to_peer_preconditions_witness :
  let K := linux_constants in
  let not_client :=
    environment false (Some "job1:0:/tmp/pmix.sock") 7 None 0 0 5 in
  let no_descriptor := environment true None 7 None 0 0 5 in
  let two_fields := daemon "job1:0" 7 None 0 0 5 in
  let no_path := daemon "myjob:0:/tmp/nonexistent.sock" 7 None 0 0 5 in
  connect_to_peer K not_client fresh_state
  = Some (PMIX_ERR_NOT_SUPPORTED K, fresh_state)
  /\ connect_to_peer K no_descriptor fresh_state
     = Some (PMIX_ERR_SERVER_NOT_AVAIL K, fresh_state)
  /\ connect_to_peer K two_fields fresh_state
     = Some (PMIX_ERROR K, fresh_state)
  /\ (exists st',
        connect_to_peer K no_path fresh_state
        = Some (PMIX_ERR_NOT_FOUND K, st')
        /\ calls st' = calls fresh_state
        /\ sd (myserver st') = sd (myserver fresh_state)
        /\ connected st' = connected fresh_state).
Proof.
  intros K not_client no_descriptor two_fields no_path.
  split; [|split; [|split]].
  - apply (proj1 (connect_to_peer_preconditions K not_client fresh_state)).
    reflexivity.
  - apply (proj1 (proj2 (connect_to_peer_preconditions K no_descriptor
                           fresh_state)));
      reflexivity.
  - apply (proj1 (proj2 (proj2 (connect_to_peer_preconditions K two_fields
                                  fresh_state)))
             "job1:0");
      [reflexivity | reflexivity | vm_compute; discriminate].
  - apply (proj2 (proj2 (proj2 (connect_to_peer_preconditions K no_path
                                  fresh_state)))
             "myjob:0:/tmp/nonexistent.sock" "myjob" "0"
             "/tmp/nonexistent.sock");
      [reflexivity | reflexivity | reflexivity | vm_compute; discriminate].
Defined.



(** C7 as stated fails: ["12abc"] is not the text of an unsigned integer,
    and the rank recorded for the server is 12, not 0. *)
Lemma rank_of_invalid_text_counterexample :
  is_uint_text "12abc" = false
  /\ option_map (fun r => (fst r, server_rank (snd r)))
       (connect_to_peer linux_constants
          (daemon "job1:12abc:/tmp/pmix.sock" 7 None 0 0 5) fresh_state)
     = Some (0, Some 12).
Proof.
  vm_compute. split; reflexivity.
Qed.

Lemma connect_to_peer_rank_witness :
  let K := linux_constants in
  let w := daemon "job1:abc:/tmp/pmix.sock" 7 None 0 0 5 in
  let w' := daemon "job1: -5x:/tmp/pmix.sock" 7 None 0 0 5 in
  (forall rc st',
     connect_to_peer K w fresh_state = Some (rc, st') ->
     server_rank st' = Some 0)
  /\ (forall rc st',
        connect_to_peer K w' fresh_state = Some (rc, st') ->
        server_rank st' = Some 4294967291)
  /\ option_map fst
       (connect_to_peer K (with_fields ["job1"; "12"; "/tmp/pmix.sock"] w)
          fresh_state)
     = option_map fst (connect_to_peer K w fresh_state).
Proof.
  intros K w w'.
  pose proof (connect_to_peer_rank K w fresh_state
                "job1:abc:/tmp/pmix.sock" "job1" "abc" "/tmp/pmix.sock"
                eq_refl eq_refl eq_refl) as (H1 & H2).
  pose proof (connect_to_peer_rank K w' fresh_state
                "job1: -5x:/tmp/pmix.sock" "job1" " -5x" "/tmp/pmix.sock"
                eq_refl eq_refl eq_refl) as (H3 & _).
  split; [|split].
  - intros rc st' Hrun.
    apply (proj1 (proj2 (H1 rc st' Hrun))). reflexivity.
  - intros rc st' Hrun.
    apply (proj2 (proj2 (H3 rc st' Hrun)) " " "-" (Decimal.D5 Decimal.Nil)
             "x");
      try reflexivity; [now right; right | discriminate].
  - apply H2.
Defined.

(** * Further properties *)

(** X1.  When [create_cred] succeeds and the length it reports leaves
    room for the credential and its terminator less at most one byte, the
    size of the message (the header, the fields and that length) does not
    wrap around a [size_t], and the buffer is allocated, [send_connect_ack]
    sends one message: the header, the fields in their order, and as many
    zero bytes as the reported length plus one exceeds the string length
    of the credential.  The number of bytes of the message is the size of
    the header plus the [nbytes] the header announces. *)
Theorem send_connect_ack_padding (K : pmix_constants) (w : world) (fd : Z)
    (st : state) :
  fst (fst (create_cred w)) = PMIX_SUCCESS K ->
  0 <= snd (create_cred w) ->
  0 <= connect_padding w ->
  sizeof_hdr + connect_nbytes K w st < 2 ^ 64 ->
  malloc_succeeds w (sizeof_hdr + connect_nbytes K w st) = true ->
  let msg := connect_message K w st in
  send_connect_ack K w fd st
  = Some (if status_ne (PMIX_SUCCESS K) (pmix_ptl_base_send_blocking w fd msg)
          then PMIX_ERR_UNREACH K else PMIX_SUCCESS K,
          after_handshake [Call_create_cred (sd (myserver st));
                           Call_get_available_modules;
                           Call_send_blocking fd msg] None st)
  /\ Z.of_nat (List.length msg) = sizeof_hdr + connect_nbytes K w st
  /\ skipn 16 msg
     = payload_fields (handshake_fields K w st)
       ++ repeat NUL (Z.to_nat (connect_padding w)).
Proof.
  intros Hrc Hlen Hpad Hsize Hmalloc msg. split; [|split].
  - now apply send_connect_ack_message.
  - now apply length_connect_message.
  - subst msg. unfold connect_message.
    rewrite skipn_app, length_hdr_bytes, Nat.sub_diag.
    rewrite skipn_all2 by (rewrite length_hdr_bytes; lia).
    reflexivity.
Qed.

Lemma send_connect_ack_padding_witness :
  let K := linux_constants in
  let w := daemon "job1:0:/tmp/pmix.sock" 7 (Some "abc") 5 0 5 in
  let msg := connect_message K w fresh_state in
  send_connect_ack K w 7 fresh_state
  = Some (PMIX_SUCCESS K,
          after_handshake [Call_create_cred (-1); Call_get_available_modules;
                           Call_send_blocking 7 msg] None fresh_state)
  /\ Z.of_nat (List.length msg) = 16 + 38
  /\ skipn 16 msg
     = payload_fields (handshake_fields K w fresh_state) ++ [NUL; NUL; NUL].
Proof.
  intros K w msg.
  apply (send_connect_ack_padding K w 7 fresh_state);
    try reflexivity; vm_compute; intuition discriminate.
Defined.

(** X2.  When the credential is longer than the length [create_cred]
    reports plus one, the buffer allocated from the reported length is too
    short for the fields: the copies run past its end, and the behaviour of
    [send_connect_ack] is undefined. *)
Theorem send_connect_ack_overrun (K : pmix_constants) (w : world) (fd : Z)
    (st : state) :
  fst (fst (create_cred w)) = PMIX_SUCCESS K ->
  0 <= snd (create_cred w) ->
  connect_padding w < 0 ->
  sizeof_hdr
  + Z.of_nat (List.length (payload_fields (handshake_fields K w st)))
  < 2 ^ 64 ->
  malloc_succeeds w (sizeof_hdr + connect_nbytes K w st) = true ->
  send_connect_ack K w fd st = None.
Proof.
  unfold connect_nbytes, connect_padding.
  destruct (create_cred w) as [[rc cred] len] eqn:Hcred. cbn [fst snd].
  intros -> Hlen0 Hc Hsize Hmalloc.
  pose proof (payload_fields_length K w st _ _ _ Hcred) as Hlen.
  set (fields := payload_fields (handshake_fields K w st)) in *.
  set (c := strlen (cred_string cred)) in *.
  set (n := Z.of_nat (List.length fields) + (len + 1 - c)) in *.
  assert (Hn : n = strlen (proc_nspace (myid st)) + 1 + sizeof_int
       + strlen (PMIX_VERSION K) + 1 + len + 1
       + (strlen (pmix_psec_base_get_available_modules w) + 1)
       + (strlen "v20" + 1) + 1
       + (strlen (if PMIX_ENABLE_DSTORE K then "ds12" else "hash") + 1))
    by (subst n c; lia).
  clearbody fields n.
  unfold send_connect_ack, body.
  rewrite bind_get, bind_extern.
  rewrite Hcred, status_ne_refl, bind_extern.
  subst c. unfold strlen in *. unfold sizeof_hdr, sizeof_int in *.
  change (String.length "v20") with 3%nat in *.
  destruct cred as [cr|]; cbn [cred_string String.length] in *; [|lia].
  clear_size_t.
  rewrite <- Hn, Hmalloc. cbn [negb].
  memcpy_or_overrun. memcpy_or_overrun. memcpy_or_overrun. memcpy_or_overrun.
  unfold bind at 1.
  memcpy_or_overrun. unfold ret at 1.
  rewrite repeat_length, ?length_chars, ?length_le_bytes, ?length_hdr_bytes
    in *.
  clear_size_t.
  memcpy_or_overrun. memcpy_or_overrun. memcpy_or_overrun. memcpy_or_overrun.
  exfalso.
  rewrite ?length_chars, ?length_le_bytes, ?length_hdr_bytes in *.
  lia.
Qed.

Lemma send_connect_ack_overrun_witness :
  send_connect_ack linux_constants
    (daemon "job1:0:/tmp/pmix.sock" 7 (Some "abc") 1 0 5) 7 fresh_state
  = None.
Proof.
  apply (send_connect_ack_overrun linux_constants
           (daemon "job1:0:/tmp/pmix.sock" 7 (Some "abc") 1 0 5) 7
           fresh_state);
    try reflexivity; vm_compute; intuition discriminate.
Defined.

(** X3.  [send_connect_ack] returns the failure of [create_cred] as it
    is, having asked for nothing else; it returns
    [PMIX_ERR_OUT_OF_RESOURCE] when the buffer cannot be allocated, having
    sent nothing; and whenever it returns, it returns success exactly when
    it handed one message to the blocking send on [fd] and that send
    succeeded.  No run sends more than one message. *)
Theorem send_connect_ack_failures (K : pmix_constants) (w : world) (fd : Z)
    (st : state) :
  PMIX_ERR_OUT_OF_RESOURCE K <> PMIX_SUCCESS K ->
  PMIX_ERR_UNREACH K <> PMIX_SUCCESS K ->
  (fst (fst (create_cred w)) <> PMIX_SUCCESS K ->
   send_connect_ack K w fd st
   = Some (fst (fst (create_cred w)),
           after_handshake [Call_create_cred (sd (myserver st))] None st))
  /\ (fst (fst (create_cred w)) = PMIX_SUCCESS K ->
      0 <= snd (create_cred w) ->
      sizeof_hdr + connect_nbytes K w st < 2 ^ 64 ->
      malloc_succeeds w (sizeof_hdr + connect_nbytes K w st) = false ->
      send_connect_ack K w fd st
      = Some (PMIX_ERR_OUT_OF_RESOURCE K,
              after_handshake [Call_create_cred (sd (myserver st));
                               Call_get_available_modules] None st))
  /\ (forall rc st',
        send_connect_ack K w fd st = Some (rc, st') ->
        exists cs,
          calls st' = calls st ++ cs
          /\ (List.length (sends cs) <= 1)%nat
          /\ (rc = PMIX_SUCCESS K
              <-> exists msg,
                    sends cs = [(fd, msg)]
                    /\ pmix_ptl_base_send_blocking w fd msg = PMIX_SUCCESS K)).
Proof.
  intros Hoor Hunreach. split; [|split].
  - intro Hrc. unfold send_connect_ack. unfold_stmt.
    destruct (create_cred w) as [[rc cred] len]. cbn [fst] in *.
    rewrite (status_ne_neq _ _ Hrc). reflexivity.
  - unfold connect_nbytes, connect_padding.
    destruct (create_cred w) as [[rc cred] len] eqn:Hcred. cbn [fst snd].
    intros -> Hlen0 Hsize Hmalloc.
    pose proof (payload_fields_length K w st _ _ _ Hcred) as Hlen.
    set (fields := payload_fields (handshake_fields K w st)) in *.
    set (c := strlen (cred_string cred)) in *.
    set (n := Z.of_nat (List.length fields) + (len + 1 - c)) in *.
    assert (Hn : n = strlen (proc_nspace (myid st)) + 1 + sizeof_int
         + strlen (PMIX_VERSION K) + 1 + len + 1
         + (strlen (pmix_psec_base_get_available_modules w) + 1)
         + (strlen "v20" + 1) + 1
         + (strlen (if PMIX_ENABLE_DSTORE K then "ds12" else "hash") + 1))
      by (subst n c; lia).
    clearbody fields n.
    unfold send_connect_ack, body.
    rewrite bind_get, bind_extern.
    rewrite Hcred, status_ne_refl, bind_extern.
    subst c. unfold strlen in *. unfold sizeof_hdr, sizeof_int in *.
    change (String.length "v20") with 3%nat in *.
    clear_size_t.
    rewrite <- Hn, Hmalloc. cbn [negb].
    unfold return_. f_equal. f_equal.
    apply state_eq; cbn; rewrite <- ?app_assoc; reflexivity.
  - intros rc st' Hrun.
    destruct (send_connect_ack_inv K w fd st rc st' Hrun)
      as [(Hne & -> & ->)|[(_ & -> & ->)|(msg & _ & -> & ->)]];
      eexists; (split; [reflexivity|]); cbn [sends flat_map app List.length];
      (split; [lia|]).
    + split; [intro E; now rewrite E in Hne|].
      intros (msg & [=] & _).
    + split; [intro E; now rewrite E in Hoor|].
      intros (msg & [=] & _).
    + destruct (status_ne _ _) eqn:Hs.
      * apply status_ne_true in Hs.
        split; [intro E; now rewrite E in Hunreach|].
        intros (msg' & [= <-] & E). contradiction.
      * apply status_ne_false in Hs.
        split; [|reflexivity]. intros _. now exists msg.
Qed.


Lemma send_connect_ack_failures_witness :
  let K := linux_constants in
  let w1 := with_credential (-1, None, 0) accepting in
  let w2 := with_malloc (fun _ => false) accepting in
  let msg := connect_message K accepting fresh_state in
  send_connect_ack K w1 7 fresh_state
  = Some (-1, after_handshake [Call_create_cred (-1)] None fresh_state)
  /\ send_connect_ack K w2 7 fresh_state
     = Some (-29, after_handshake [Call_create_cred (-1);
                                   Call_get_available_modules] None
                    fresh_state)
  /\ exists cs,
       calls (after_handshake [Call_create_cred (-1);
                               Call_get_available_modules;
                               Call_send_blocking 7 msg] None fresh_state)
       = calls fresh_state ++ cs
       /\ (List.length (sends cs) <= 1)%nat
       /\ (0 = PMIX_SUCCESS K
           <-> exists m,
                 sends cs = [(7, m)]
                 /\ pmix_ptl_base_send_blocking accepting 7 m
                    = PMIX_SUCCESS K).
Proof.
  intros K w1 w2 msg.
  assert (H1 : PMIX_ERR_OUT_OF_RESOURCE K <> PMIX_SUCCESS K) by discriminate.
  assert (H2 : PMIX_ERR_UNREACH K <> PMIX_SUCCESS K) by discriminate.
  split; [|split].
  - apply (proj1 (send_connect_ack_failures K w1 7 fresh_state H1 H2)).
    discriminate.
  - apply (proj1 (proj2 (send_connect_ack_failures K w2 7 fresh_state H1 H2)));
      try reflexivity; vm_compute; intuition discriminate.
  - apply (proj2 (proj2 (send_connect_ack_failures K accepting 7 fresh_state
                           H1 H2))).
    reflexivity.
Defined.

(** X4.  [recv_connect_ack] returns success exactly when every step of
    the acknowledgment went well: the timeout was set and put back, or the
    option is not supported; the status was read and is success, or is the
    sentinel and [client_handshake] succeeded; the index was read.  It has
    then made the calls of such a run, and the index is in
    [pmix_globals.pindex]. *)
Theorem recv_connect_ack_success_iff (K : pmix_constants) (w : world)
    (fd : Z) (st st' : state) :
  PMIX_ERR_UNREACH K <> PMIX_SUCCESS K ->
  recv_connect_ack K w fd st = Some (PMIX_SUCCESS K, st')
  <-> acknowledged K w fd = true
      /\ st' = after_handshake (ack_calls K w (sd (myserver st)) fd)
                 (Some (snd (recv_blocking_pindex w))) st.
Proof.
  intro Hne. split.
  - intro Hrun.
    pose proof (recv_connect_ack_success_inv K w fd st st' Hne Hrun) as Hack.
    split; [exact Hack|].
    rewrite (recv_connect_ack_acknowledged K w fd st Hack) in Hrun.
    now injection Hrun as <-.
  - intros [Hack ->]. now apply recv_connect_ack_acknowledged.
Qed.

Lemma recv_connect_ack_success_iff_witness :
  let K := linux_constants in
  let w := with_client_handshake 0 (daemon "job1:0:/tmp/pmix.sock" 7 None 0
                                      (-14) 5) in
  let st' := after_handshake
               [Call_getsockopt 7;
                Call_setsockopt 7 {| tv_sec := 2; tv_usec := 0 |} 16;
                Call_recv_blocking 7 4; Call_client_handshake (-1) 7;
                Call_recv_blocking 7 4;
                Call_setsockopt 7 {| tv_sec := 0; tv_usec := 0 |} 16]
               (Some 5) fresh_state in
  recv_connect_ack K w 7 fresh_state = Some (PMIX_SUCCESS K, st')
  <-> acknowledged K w 7 = true
      /\ st' = after_handshake (ack_calls K w (-1) 7) (Some 5) fresh_state.
Proof.
  intros K w st'.
  apply (recv_connect_ack_success_iff K w 7 fresh_state st').
  discriminate.
Defined.

(** X5.  On a transport that supports the receive timeout, a run of
    [recv_connect_ack] puts the saved timeout back only after it read the
    status and the index: a run that returns earlier has made one
    [setsockopt] call, for the 2 seconds, which stay on the socket, and it
    returns a failure. *)
Theorem recv_connect_ack_timeout_left (K : pmix_constants) (w : world)
    (fd : Z) (st : state) (save : timeval) (sz : Z) (rc : pmix_status_t)
    (st' : state) (cs : list call) :
  PMIX_ERR_UNREACH K <> PMIX_SUCCESS K ->
  getsockopt_SO_RCVTIMEO w fd = Getsockopt_ok save sz ->
  recv_connect_ack K w fd st = Some (rc, st') ->
  calls st' = calls st ++ cs ->
  let timeout := (fd, {| tv_sec := 2; tv_usec := 0 |}, sizeof_timeval) in
  (setsockopts cs = [timeout; (fd, save, sz)]
   /\ fst (recv_blocking_status w) = PMIX_SUCCESS K
   /\ fst (recv_blocking_pindex w) = PMIX_SUCCESS K
   /\ recvs cs = [(fd, sizeof_int); (fd, sizeof_int)])
  \/ (setsockopts cs = [timeout] /\ rc <> PMIX_SUCCESS K).
Proof.
  intros Hne Hg.
  unfold recv_connect_ack. unfold_stmt. unfold status_ne. rewrite Hg.
  destruct (recv_blocking_status w) as [rc1 reply].
  destruct (recv_blocking_pindex w) as [rc2 idx]. cbn [fst snd].
  rewrite !(Z.eqb_sym (PMIX_SUCCESS K)).
  split_tests.
  all: intros [= <- <-]; cbn [calls add_call set_globals_pindex];
    rewrite <- ?app_assoc; intro Hcs; apply app_inv_head in Hcs; subst cs.
  all: repeat match goal with
         | H : (_ =? _) = false |- _ => apply Z.eqb_neq in H
         | H : (_ =? _) = true |- _ => apply Z.eqb_eq in H
         end.
  all: cbn; first [ left; repeat split; congruence
                  | right; split; [reflexivity|]; congruence ].
Qed.

Lemma recv_connect_ack_timeout_left_witness :
  let K := linux_constants in
  let timeout := (7, {| tv_sec := 2; tv_usec := 0 |}, sizeof_timeval) in
  let cs := [Call_getsockopt 7;
             Call_setsockopt 7 {| tv_sec := 2; tv_usec := 0 |} 16;
             Call_recv_blocking 7 4] in
  (setsockopts cs = [timeout; (7, {| tv_sec := 0; tv_usec := 0 |}, 16)]
   /\ fst (recv_blocking_status refusing) = PMIX_SUCCESS K
   /\ fst (recv_blocking_pindex refusing) = PMIX_SUCCESS K
   /\ recvs cs = [(7, sizeof_int); (7, sizeof_int)])
  \/ (setsockopts cs = [timeout] /\ -25 <> PMIX_SUCCESS K).
Proof.
  intros K timeout cs.
  apply (recv_connect_ack_timeout_left K refusing 7 fresh_state
           {| tv_sec := 0; tv_usec := 0 |} 16 (-25)
           (after_handshake cs None fresh_state) cs);
    try reflexivity; discriminate.
Defined.

(** X6.  A run of [connect_to_peer] that got past the field check has
    recorded an [AF_UNIX] address whose path is the third field of the
    descriptor cut to two characters less than [sun_path] holds: the field
    itself when it is that short.  The run connects to no other address,
    and connects only when [access] accepted the third field, which it is
    given uncut. *)
Theorem connect_to_peer_address (K : pmix_constants) (w : world) (st : state)
    (rc : pmix_status_t) (st' : state) (evar uri0 uri1 uri2 : string)
    (cs : list call) :
  PMIX_PROC_IS_CLIENT w = true ->
  getenv_PMIX_SERVER_URI w = Some evar ->
  pmix_argv_split w evar = [uri0; uri1; uri2] ->
  connect_to_peer K w st = Some (rc, st') ->
  calls st' = calls st ++ cs ->
  let path := sun_path (connection st') in
  sun_family (connection st') = AF_UNIX
  /\ path = String.substring 0 (sizeof_sun_path K - 2) uri2
  /\ (String.length path <= sizeof_sun_path K - 2)%nat
  /\ ((String.length uri2 <= sizeof_sun_path K - 2)%nat -> path = uri2)
  /\ (connects cs = []
      \/ (connects cs = [connection st'] /\ access_R_OK w uri2 = 0)).
Proof.
  intros Hc He Hs Hrun Hcs path.
  apply connect_to_peer_run in Hrun.
  destruct (connect_run_rendezvous K w st rc st' evar uri0 uri1 uri2
              Hrun Hc He Hs) as (Hconn & _ & Hcalls).
  assert (Hpath : path = String.substring 0 (sizeof_sun_path K - 2) uri2).
  { subst path. rewrite Hconn. cbn. unfold snprintf_s.
    rewrite substring_0_min. f_equal. lia. }
  split; [now rewrite Hconn|]. split; [exact Hpath|].
  split; [rewrite Hpath, length_substring_0; lia|].
  split; [intro Hshort; rewrite Hpath; now apply substring_0_all|].
  now apply Hcalls.
Qed.

Lemma connect_to_peer_address_witness :
  let K := linux_constants in
  let st' := established_state in
  let path := sun_path (connection st') in
  sun_family (connection st') = AF_UNIX
  /\ path = String.substring 0 (sizeof_sun_path K - 2) "/tmp/pmix.sock"
  /\ (String.length path <= sizeof_sun_path K - 2)%nat
  /\ ((String.length "/tmp/pmix.sock" <= sizeof_sun_path K - 2)%nat
      -> path = "/tmp/pmix.sock")
  /\ (connects (calls st') = []
      \/ (connects (calls st') = [connection st']
          /\ access_R_OK accepting "/tmp/pmix.sock" = 0)).
Proof.
  intros K st' path.
  apply (connect_to_peer_address K accepting fresh_state 0 st'
           "job1:0:/tmp/pmix.sock" "job1" "0" "/tmp/pmix.sock" (calls st'));
    reflexivity.
Defined.

(** X7.  When [pmix_ptl_base_connect] fails, [connect_to_peer] returns its
    status as it is.  The connect call is the only call of the run: nothing
    is sent and nothing is closed; the descriptor of the server peer, its
    events and the established flag are what they were. *)
Theorem connect_to_peer_unreachable (K : pmix_constants) (w : world)
    (st : state) (evar uri0 uri1 uri2 : string) (rc : pmix_status_t)
    (fd : Z) :
  PMIX_PROC_IS_CLIENT w = true ->
  getenv_PMIX_SERVER_URI w = Some evar ->
  pmix_argv_split w evar = [uri0; uri1; uri2] ->
  access_R_OK w uri2 = 0 ->
  let addr := {| sun_family := AF_UNIX;
                 sun_path := snprintf_s (sizeof_sun_path K - 1) uri2 |} in
  pmix_ptl_base_connect w addr = (rc, fd) ->
  rc <> PMIX_SUCCESS K ->
  exists st',
    connect_to_peer K w st = Some (rc, st')
    /\ calls st' = calls st ++ [Call_connect addr]
    /\ sd (myserver st') = sd (myserver st)
    /\ recv_event (myserver st') = recv_event (myserver st)
    /\ send_event (myserver st') = send_event (myserver st)
    /\ connected st' = connected st
    /\ globals_pindex st' = globals_pindex st.
Proof.
  intros Hc He Hs Ha addr Hconn Hrc.
  rewrite (connect_to_peer_eq K w st evar uri0 uri1 uri2 Hc He Hs).
  cbv zeta. rewrite Ha. cbn [Z.eqb negb].
  change (connection (rendezvous K uri0 uri1 uri2 st)) with addr.
  rewrite Hconn, (status_ne_neq _ _ Hrc).
  eexists. split; [reflexivity|]. now repeat split.
Qed.

Lemma connect_to_peer_unreachable_witness :
  let K := linux_constants in
  let w := with_connect (fun _ => (-25, -1)) accepting in
  let addr := {| sun_family := AF_UNIX; sun_path := "/tmp/pmix.sock" |} in
  exists st',
    connect_to_peer K w established_state = Some (-25, st')
    /\ calls st' = calls established_state ++ [Call_connect addr]
    /\ sd (myserver st') = sd (myserver established_state)
    /\ recv_event (myserver st') = recv_event (myserver established_state)
    /\ send_event (myserver st') = send_event (myserver established_state)
    /\ connected st' = connected established_state
    /\ globals_pindex st' = globals_pindex established_state.
Proof.
  intros K w addr.
  apply (connect_to_peer_unreachable K w established_state
           "job1:0:/tmp/pmix.sock" "job1" "0" "/tmp/pmix.sock" (-25) (-1));
    try reflexivity; discriminate.
Defined.

(** X8.  A run of [connect_to_peer] that returns success went through the
    whole protocol on the descriptor [fd] that the connect call returned:
    after the connect it asked for the credential and the security
    modules, sent one message, which the blocking send took, ran an
    acknowledgment in which every step went well, and set up the events; it
    made no other call.  The index that the daemon sent is in
    [pmix_globals.pindex], and [fd] is the socket of the server peer. *)
Theorem connect_to_peer_success_protocol (K : pmix_constants) (w : world)
    (st st' : state) :
  errors_are_failures K ->
  connect_to_peer K w st = Some (PMIX_SUCCESS K, st') ->
  let fd := sd (myserver st') in
  exists msg,
    pmix_ptl_base_connect w (connection st') = (PMIX_SUCCESS K, fd)
    /\ fst (fst (create_cred w)) = PMIX_SUCCESS K
    /\ pmix_ptl_base_send_blocking w fd msg = PMIX_SUCCESS K
    /\ acknowledged K w fd = true
    /\ globals_pindex st' = snd (recv_blocking_pindex w)
    /\ calls st'
       = calls st
         ++ [Call_connect (connection st'); Call_create_cred fd;
             Call_get_available_modules; Call_send_blocking fd msg]
         ++ ack_calls K w fd fd
         ++ [Call_set_nonblocking fd;
             Call_event_assign Recv_event (read_event fd);
             Call_event_add Recv_event (Some (read_event fd));
             Call_event_assign Send_event (write_event fd)].
Proof.
  intros HK Hrun fd. subst fd.
  destruct HK as (H1 & H2 & H3 & H4 & H5 & H6).
  destruct (connect_to_peer_inv K w st _ st' Hrun)
    as [(_ & [Hc|[He|(evar & He & Hn)]])
       |(evar & uri0 & uri1 & uri2 & Hc & He & Hs & Hcase)].
  - rewrite (connect_to_peer_not_client K w st Hc) in Hrun. congruence.
  - destruct (PMIX_PROC_IS_CLIENT w) eqn:Hc.
    + rewrite (connect_to_peer_no_descriptor K w st Hc He) in Hrun.
      congruence.
    + rewrite (connect_to_peer_not_client K w st Hc) in Hrun. congruence.
  - destruct (PMIX_PROC_IS_CLIENT w) eqn:Hc.
    + rewrite (connect_to_peer_malformed K w st evar Hc He Hn) in Hrun.
      congruence.
    + rewrite (connect_to_peer_not_client K w st Hc) in Hrun. congruence.
  - cbv zeta in Hcase.
    destruct Hcase as [(_ & E & _)
                      |(_ & rc0 & fd & Hconn
                          & [(Hne & E & _)|(-> & Hshake)])];
      try congruence.
    destruct (handshake_success K w fd _ st' H3 H2 Hshake)
      as (msg & Hcred & Hmsg & Hack & ->).
    exists msg. cbn.
    repeat split; try assumption.
    unfold ack_calls. cbn.
    do 3 (rewrite <- ?app_assoc; cbn [app]). reflexivity.
Qed.

Lemma connect_to_peer_success_protocol_witness :
  let K := linux_constants in
  let st' := established_state in
  exists msg,
    pmix_ptl_base_connect accepting (connection st') = (PMIX_SUCCESS K, 7)
    /\ fst (fst (create_cred accepting)) = PMIX_SUCCESS K
    /\ pmix_ptl_base_send_blocking accepting 7 msg = PMIX_SUCCESS K
    /\ acknowledged K accepting 7 = true
    /\ globals_pindex st' = 5
    /\ calls st'
       = calls fresh_state
         ++ [Call_connect (connection st'); Call_create_cred 7;
             Call_get_available_modules; Call_send_blocking 7 msg]
         ++ ack_calls K accepting 7 7
         ++ [Call_set_nonblocking 7;
             Call_event_assign Recv_event (read_event 7);
             Call_event_add Recv_event (Some (read_event 7));
             Call_event_assign Send_event (write_event 7)].
Proof.
  intros K st'.
  apply (connect_to_peer_success_protocol K accepting fresh_state st'
           linux_errors_are_failures).
  reflexivity.
Defined.



(** X10.  A run of [connect_to_peer] that got past the field check,
    whatever it then returns and whatever the server peer held before, has
    recorded as nspace of the server the first field of the descriptor cut
    to [PMIX_MAX_NSLEN] characters: the field itself when it is no longer
    than that. *)
Theorem connect_to_peer_server_nspace (K : pmix_constants) (w : world)
    (st : state) (rc : pmix_status_t) (st' : state)
    (evar uri0 uri1 uri2 : string) :
  PMIX_PROC_IS_CLIENT w = true ->
  getenv_PMIX_SERVER_URI w = Some evar ->
  pmix_argv_split w evar = [uri0; uri1; uri2] ->
  connect_to_peer K w st = Some (rc, st') ->
  exists ns,
    server_nspace st' = Some ns
    /\ ns = String.substring 0 (PMIX_MAX_NSLEN K) uri0
    /\ (String.length ns <= PMIX_MAX_NSLEN K)%nat
    /\ ((String.length uri0 <= PMIX_MAX_NSLEN K)%nat -> ns = uri0).
Proof.
  intros Hc He Hs Hrun.
  apply connect_to_peer_run in Hrun.
  destruct (connect_run_rendezvous K w st rc st' evar uri0 uri1 uri2
              Hrun Hc He Hs) as (_ & Hinfo & _).
  exists (String.substring 0 (PMIX_MAX_NSLEN K) uri0).
  split; [|split; [reflexivity|split]].
  - unfold server_nspace. rewrite Hinfo. cbn. unfold strncpy.
    now rewrite substring_0_min.
  - rewrite length_substring_0. lia.
  - intro Hshort. now apply substring_0_all.
Qed.

Lemma connect_to_peer_server_nspace_witness :
  exists ns,
    server_nspace refused_state = Some ns
    /\ ns = String.substring 0 (PMIX_MAX_NSLEN linux_constants) "job1"
    /\ (String.length ns <= PMIX_MAX_NSLEN linux_constants)%nat
    /\ ((String.length "job1" <= PMIX_MAX_NSLEN linux_constants)%nat
        -> ns = "job1").
Proof.
  apply (connect_to_peer_server_nspace linux_constants refusing fresh_state
           (-25) refused_state "job1:0:/tmp/pmix.sock" "job1" "0"
           "/tmp/pmix.sock");
    reflexivity.
Defined.

(** X11.  No run of [connect_to_peer] changes the identity of the
    process, the reference counts of the peers or the queue of the event
    base, and it only adds to the calls made.  A run that fails leaves the
    established flag and the events of the server peer, with their
    activity flags, as they were. *)
Theorem connect_to_peer_frame (K : pmix_constants) (w : world) (st : state)
    (rc : pmix_status_t) (st' : state) :
  connect_to_peer K w st = Some (rc, st') ->
  myid st' = myid st /\ refcount st' = refcount st
  /\ event_queue st' = event_queue st
  /\ (exists cs, calls st' = calls st ++ cs)
  /\ (rc <> PMIX_SUCCESS K ->
      connected st' = connected st
      /\ recv_event (myserver st') = recv_event (myserver st)
      /\ recv_ev_active (myserver st') = recv_ev_active (myserver st)
      /\ send_event (myserver st') = send_event (myserver st)
      /\ send_ev_active (myserver st') = send_ev_active (myserver st)).
Proof.
  intro Hrun. apply connect_to_peer_run in Hrun.
  inversion Hrun; subst; cbn.
  all: repeat split; try contradiction.
  all: rewrite <- ?app_assoc;
    first [ now exists []; rewrite app_nil_r | eexists; reflexivity ].
Qed.

Lemma connect_to_peer_frame_witness :
  let st' := refused_state in
  myid st' = myid fresh_state /\ refcount st' = refcount fresh_state
  /\ event_queue st' = event_queue fresh_state
  /\ (exists cs, calls st' = calls fresh_state ++ cs)
  /\ (-25 <> PMIX_SUCCESS linux_constants ->
      connected st' = connected fresh_state
      /\ recv_event (myserver st') = recv_event (myserver fresh_state)
      /\ recv_ev_active (myserver st') = recv_ev_active (myserver fresh_state)
      /\ send_event (myserver st') = send_event (myserver fresh_state)
      /\ send_ev_active (myserver st')
         = send_ev_active (myserver fresh_state)).
Proof.
  intro st'.
  apply (connect_to_peer_frame linux_constants refusing fresh_state (-25) st').
  reflexivity.
Defined.

(** X14.  A run of [connect_to_peer] makes at most one connect call, sends
    at most one message, makes at most two reads and closes at most one
    descriptor; and every call it makes on a descriptor is on the one that
    its connect call returned. *)
Theorem connect_to_peer_one_descriptor (K : pmix_constants) (w : world)
    (st : state) (rc : pmix_status_t) (st' : state) (cs : list call) :
  connect_to_peer K w st = Some (rc, st') ->
  calls st' = calls st ++ cs ->
  (List.length (connects cs) <= 1)%nat
  /\ (List.length (sends cs) <= 1)%nat
  /\ (List.length (recvs cs) <= 2)%nat
  /\ (List.length (closed_fds cs) <= 1)%nat
  /\ forall addr,
       In addr (connects cs) ->
       forallb (on_descriptor (snd (pmix_ptl_base_connect w addr))) cs = true.
Proof.
  intros Hrun Hcs.
  destruct (connect_to_peer_inv K w st rc st' Hrun)
    as [(-> & _)|(evar & uri0 & uri1 & uri2 & Hc & He & Hs & Hcase)].
  { apply app_eq_self_nil in Hcs. subst cs. cbn.
    repeat split; lia. }
  cbv zeta in Hcase.
  destruct Hcase as [(_ & _ & ->)
                    |(_ & rc0 & fd & Hconn
                        & [(_ & _ & ->)|(-> & Hshake)])].
  - cbn in Hcs. apply app_eq_self_nil in Hcs. subst cs. cbn.
    repeat split; lia.
  - cbn in Hcs. apply app_inv_head in Hcs. subst cs. cbn.
    repeat split; try lia.
  - destruct (handshake_appends K w fd _ rc st' Hshake) as (hs & Hhs & Hco).
    destruct (handshake_calls K w fd _ rc st' hs Hshake Hhs eq_refl)
      as (Hon & Hse & Hre & Hcl).
    rewrite Hhs in Hcs. cbn in Hcs. rewrite <- app_assoc in Hcs.
    apply app_inv_head in Hcs. subst cs. cbn [app].
    change (connects (Call_connect ?a :: hs)) with (a :: connects hs).
    change (sends (Call_connect ?a :: hs)) with (sends hs).
    change (recvs (Call_connect ?a :: hs)) with (recvs hs).
    change (closed_fds (Call_connect ?a :: hs)) with (closed_fds hs).
    rewrite Hco. cbn [List.length].
    repeat split; try lia.
    intros addr [<-|[]]. cbn [forallb on_descriptor andb].
    change (connection (rendezvous K uri0 uri1 uri2 st))
      with {| sun_family := AF_UNIX;
              sun_path := snprintf_s (sizeof_sun_path K - 1) uri2 |} in Hconn.
    now rewrite Hconn.
Qed.

Lemma connect_to_peer_one_descriptor_witness :
  let cs := calls refused_state in
  (List.length (connects cs) <= 1)%nat
  /\ (List.length (sends cs) <= 1)%nat
  /\ (List.length (recvs cs) <= 2)%nat
  /\ (List.length (closed_fds cs) <= 1)%nat
  /\ forall addr,
       In addr (connects cs) ->
       forallb (on_descriptor (snd (pmix_ptl_base_connect refusing addr))) cs
       = true.
Proof.
  intro cs.
  apply (connect_to_peer_one_descriptor linux_constants refusing fresh_state
           (-25) refused_state cs);
    reflexivity.
Defined.

(** X13.  Submissions compose: a sequence of calls of [send_recv] and
    [send_oneway], made in any state, connected or not, returns success
    for each of them; the requests are added to the queue of the event
    base in the order of the calls, every peer has as many references more
    as there are submissions that name it, and nothing else of the state
    changes: no call is made on a socket. *)
Theorem submissions_compose (K : pmix_constants) (ss : list submission)
    (st : state) :
  exists st',
    submit_all K ss st = Some (repeat (PMIX_SUCCESS K) (List.length ss), st')
    /\ event_queue st' = event_queue st ++ map request_of ss
    /\ (forall p,
          refcount st' p
          = (refcount st p
             + count_occ Nat.eq_dec (map submitted_peer ss) p)%nat)
    /\ calls st' = calls st /\ myserver st' = myserver st
    /\ connected st' = connected st /\ connection st' = connection st
    /\ globals_pindex st' = globals_pindex st /\ myid st' = myid st.
Proof.
  revert st. induction ss as [|s ss IH]; intro st.
  - exists st. cbn. rewrite app_nil_r. repeat split. intro p. lia.
  - assert (H1 : exists st1,
               submit K s st = Some (PMIX_SUCCESS K, st1)
               /\ event_queue st1 = event_queue st ++ [request_of s]
               /\ (forall p, refcount st1 p
                             = if Nat.eqb p (submitted_peer s)
                               then S (refcount st p) else refcount st p)
               /\ calls st1 = calls st /\ myserver st1 = myserver st
               /\ connected st1 = connected st
               /\ connection st1 = connection st
               /\ globals_pindex st1 = globals_pindex st
               /\ myid st1 = myid st).
    { destruct s; eexists; (split; [reflexivity|]); now repeat split. }
    destruct H1 as (st1 & Hs & Hq1 & Hr1 & Hc1 & Hm1 & Hf1 & Ha1 & Hp1 & Hi1).
    destruct (IH st1) as (st' & Hss & Hq & Hr & Hc & Hm & Hf & Ha & Hp & Hi).
    exists st'. cbn [submit_all List.length repeat map].
    rewrite Hs, Hss.
    split; [reflexivity|].
    split; [rewrite Hq, Hq1, <- app_assoc; reflexivity|].
    split; [|repeat split; congruence].
    intro p. rewrite Hr, Hr1. cbn [count_occ].
    destruct (Nat.eq_dec (submitted_peer s) p) as [<-|Hne].
    + rewrite Nat.eqb_refl. lia.
    + apply not_eq_sym in Hne. apply Nat.eqb_neq in Hne. rewrite Hne. lia.
Qed.

(** X12.  When the second field of the descriptor is the decimal text of
    a number, every run of [connect_to_peer] that got past the field check
    records as rank of the server that number, cut to [ULLONG_MAX] and
    then reduced to 32 bits: the number itself when it is below 2^32, and
    2^32 - 1 when it does not fit 64 bits. *)
Theorem connect_to_peer_decimal_rank (K : pmix_constants) (w : world)
    (st : state) (rc : pmix_status_t) (st' : state) (evar ns p : string)
    (n : N) :
  PMIX_PROC_IS_CLIENT w = true ->
  getenv_PMIX_SERVER_URI w = Some evar ->
  pmix_argv_split w evar = [ns; decimal n; p] ->
  connect_to_peer K w st = Some (rc, st') ->
  server_rank st' = Some (Z.min (Z.of_N n) ULLONG_MAX mod 2 ^ 32)
  /\ (Z.of_N n < 2 ^ 32 -> server_rank st' = Some (Z.of_N n))
  /\ (2 ^ 64 <= Z.of_N n -> server_rank st' = Some UINT32_MAX).
Proof.
  intros Hc He Hs Hrun. apply connect_to_peer_run in Hrun.
  rewrite (connect_run_rank K w st rc st' evar ns (decimal n) p Hrun Hc He Hs).
  unfold rank_of_ull. rewrite strtoull_decimal.
  split; [reflexivity|]. unfold ULLONG_MAX, UINT32_MAX. split; intro Hn.
  - rewrite Z.min_l by lia. rewrite Z.mod_small by lia. reflexivity.
  - rewrite Z.min_r by lia. reflexivity.
Qed.

Lemma connect_to_peer_decimal_rank_witness :
  let K := linux_constants in
  let st' := rendezvous K "job1" "4294967295" "/nowhere" fresh_state in
  server_rank st' = Some (Z.min 4294967295 ULLONG_MAX mod 2 ^ 32)
  /\ (4294967295 < 2 ^ 32 -> server_rank st' = Some 4294967295)
  /\ (2 ^ 64 <= 4294967295 -> server_rank st' = Some UINT32_MAX).
Proof.
  intros K st'.
  apply (connect_to_peer_decimal_rank K
           (with_fields ["job1"; decimal 4294967295; "/nowhere"] accepting)
           fresh_state (PMIX_ERR_NOT_FOUND K) st' "job1:0:/tmp/pmix.sock"
           "job1" "/nowhere" 4294967295);
    reflexivity.
Defined.

(** X15.  The failures of [recv_connect_ack] before the index is read.
    When the query of the receive timeout fails with another [errno] than
    [ENOPROTOOPT], or when the timeout cannot be set, it returns
    [PMIX_ERR_UNREACH] and has read nothing.  When the read of the status
    fails, it returns the status of that read as it is, and does not read
    the index.  In all three cases [pmix_globals.pindex] is what it was. *)
Theorem recv_connect_ack_failures (K : pmix_constants) (w : world) (fd : Z)
    (st : state) :
  (forall errno,
     getsockopt_SO_RCVTIMEO w fd = Getsockopt_failed errno ->
     errno <> ENOPROTOOPT K ->
     recv_connect_ack K w fd st
     = Some (PMIX_ERR_UNREACH K,
             after_handshake [Call_getsockopt fd] None st))
  /\ (forall save sz,
        getsockopt_SO_RCVTIMEO w fd = Getsockopt_ok save sz ->
        setsockopt_timeout w <> 0 ->
        recv_connect_ack K w fd st
        = Some (PMIX_ERR_UNREACH K,
                after_handshake
                  [Call_getsockopt fd;
                   Call_setsockopt fd {| tv_sec := 2; tv_usec := 0 |}
                     sizeof_timeval] None st))
  /\ (forall pre,
        timeout_phase_passed K w fd pre ->
        fst (recv_blocking_status w) <> PMIX_SUCCESS K ->
        recv_connect_ack K w fd st
        = Some (fst (recv_blocking_status w),
                after_handshake (pre ++ [Call_recv_blocking fd sizeof_int])
                  None st)).
Proof.
  split; [|split].
  - intros errno Hg Hne. unfold recv_connect_ack. unfold_stmt.
    rewrite Hg. apply Z.eqb_neq in Hne. rewrite Hne. reflexivity.
  - intros save sz Hg Hne. unfold recv_connect_ack. unfold_stmt.
    rewrite Hg. apply Z.eqb_neq in Hne. rewrite Hne. cbn [negb].
    f_equal. f_equal. apply state_eq; cbn; rewrite <- ?app_assoc; reflexivity.
  - intros pre Hpre.
    apply (proj1 (recv_connect_ack_status_read K w fd st pre Hpre)).
Qed.

Lemma recv_connect_ack_failures_witness :
  let K := linux_constants in
  recv_connect_ack K (without_sockopt 9 accepting) 7 fresh_state
  = Some (PMIX_ERR_UNREACH K,
          after_handshake [Call_getsockopt 7] None fresh_state).
Proof.
  intro K.
  apply (proj1 (recv_connect_ack_failures K (without_sockopt 9 accepting) 7
                  fresh_state) 9);
    [reflexivity|discriminate].
Defined.

(** X16.  When the security module gives no credential, a run of
    [connect_to_peer] that had opened its socket returns the status of
    [create_cred] as it is: after the connect it has asked for the
    credential and closed the socket, and has sent and read nothing.  The
    descriptor stays in the server peer and the established flag is what it
    was. *)
Theorem connect_to_peer_no_credential (K : pmix_constants) (w : world)
    (st : state) (evar uri0 uri1 uri2 : string) (fd : Z) :
  PMIX_PROC_IS_CLIENT w = true ->
  getenv_PMIX_SERVER_URI w = Some evar ->
  pmix_argv_split w evar = [uri0; uri1; uri2] ->
  access_R_OK w uri2 = 0 ->
  let addr := {| sun_family := AF_UNIX;
                 sun_path := snprintf_s (sizeof_sun_path K - 1) uri2 |} in
  pmix_ptl_base_connect w addr = (PMIX_SUCCESS K, fd) ->
  fst (fst (create_cred w)) <> PMIX_SUCCESS K ->
  exists st',
    connect_to_peer K w st = Some (fst (fst (create_cred w)), st')
    /\ calls st' = calls st ++ [Call_connect addr; Call_create_cred fd;
                                Call_close fd]
    /\ sd (myserver st') = fd
    /\ connected st' = connected st
    /\ globals_pindex st' = globals_pindex st.
Proof.
  intros Hc He Hs Ha addr Hconn Hcred.
  rewrite (connect_to_peer_eq K w st evar uri0 uri1 uri2 Hc He Hs).
  cbv zeta. rewrite Ha. cbn [Z.eqb negb].
  change (connection (rendezvous K uri0 uri1 uri2 st)) with addr.
  rewrite Hconn, status_ne_refl.
  unfold handshake, send_connect_ack. unfold_stmt.
  destruct (create_cred w) as [[rc cred] len]. cbn [fst] in *.
  rewrite !(status_ne_neq _ _ Hcred).
  eexists. split; [reflexivity|]. cbn. rewrite <- !app_assoc.
  now repeat split.
Qed.

Lemma connect_to_peer_no_credential_witness :
  let K := linux_constants in
  let w := with_credential (-1, None, 0) accepting in
  let addr := {| sun_family := AF_UNIX; sun_path := "/tmp/pmix.sock" |} in
  exists st',
    connect_to_peer K w fresh_state = Some (-1, st')
    /\ calls st' = calls fresh_state ++ [Call_connect addr; Call_create_cred 7;
                                         Call_close 7]
    /\ sd (myserver st') = 7
    /\ connected st' = connected fresh_state
    /\ globals_pindex st' = globals_pindex fresh_state.
Proof.
  intros K w addr.
  apply (connect_to_peer_no_credential K w fresh_state
           "job1:0:/tmp/pmix.sock" "job1" "0" "/tmp/pmix.sock" 7);
    try reflexivity; discriminate.
Defined.

(** X17.  When the daemon answers the connect message with a status that
    is neither success nor the sentinel, a run of [connect_to_peer] returns
    that status as it is: it has sent the connect message, read the status
    and closed the socket, and has not read the index, so
    [pmix_globals.pindex] is what it was, as is the established flag. *)
Theorem connect_to_peer_refused (K : pmix_constants) (w : world)
    (st : state) (evar uri0 uri1 uri2 : string) (fd : Z) (pre : list call) :
  PMIX_PROC_IS_CLIENT w = true ->
  getenv_PMIX_SERVER_URI w = Some evar ->
  pmix_argv_split w evar = [uri0; uri1; uri2] ->
  access_R_OK w uri2 = 0 ->
  let addr := {| sun_family := AF_UNIX;
                 sun_path := snprintf_s (sizeof_sun_path K - 1) uri2 |} in
  pmix_ptl_base_connect w addr = (PMIX_SUCCESS K, fd) ->
  fst (fst (create_cred w)) = PMIX_SUCCESS K ->
  0 <= snd (create_cred w) ->
  0 <= connect_padding w ->
  sizeof_hdr + connect_nbytes K w st < 2 ^ 64 ->
  malloc_succeeds w (sizeof_hdr + connect_nbytes K w st) = true ->
  pmix_ptl_base_send_blocking w fd (connect_message K w st) = PMIX_SUCCESS K ->
  timeout_phase_passed K w fd pre ->
  fst (recv_blocking_status w) = PMIX_SUCCESS K ->
  snd (recv_blocking_status w) <> PMIX_ERR_READY_FOR_HANDSHAKE K ->
  snd (recv_blocking_status w) <> PMIX_SUCCESS K ->
  exists st',
    connect_to_peer K w st = Some (snd (recv_blocking_status w), st')
    /\ calls st'
       = calls st
         ++ [Call_connect addr; Call_create_cred fd;
             Call_get_available_modules;
             Call_send_blocking fd (connect_message K w st)]
         ++ pre ++ [Call_recv_blocking fd sizeof_int; Call_close fd]
    /\ sd (myserver st') = fd
    /\ connected st' = connected st
    /\ globals_pindex st' = globals_pindex st.
Proof.
  intros Hc He Hs Ha addr Hconn Hcred Hlen Hpad Hsize Hmalloc Hmsg Hpre
    Hstatus Hns Hnok.
  rewrite (connect_to_peer_eq K w st evar uri0 uri1 uri2 Hc He Hs).
  cbv zeta. rewrite Ha. cbn [Z.eqb negb].
  change (connection (rendezvous K uri0 uri1 uri2 st)) with addr.
  rewrite Hconn, status_ne_refl.
  unfold handshake.
  set (st0 := opened addr fd (rendezvous K uri0 uri1 uri2 st)).
  pose proof (send_connect_ack_message K w fd st0 Hcred Hlen Hpad Hsize
                Hmalloc) as Hsend.
  cbv zeta in Hsend.
  change (connect_message K w st0) with (connect_message K w st) in Hsend.
  rewrite Hmsg, status_ne_refl in Hsend.
  rewrite Hsend, status_ne_refl.
  rewrite (proj2 (recv_connect_ack_status_read K w fd _ pre Hpre)
             Hstatus Hns Hnok).
  rewrite (status_ne_neq _ _ Hnok).
  eexists. split; [reflexivity|]. cbn. rewrite <- !app_assoc.
  now repeat split.
Qed.

Lemma connect_to_peer_refused_witness :
  let K := linux_constants in
  let addr := {| sun_family := AF_UNIX; sun_path := "/tmp/pmix.sock" |} in
  let pre := [Call_getsockopt 7;
              Call_setsockopt 7 {| tv_sec := 2; tv_usec := 0 |} 16] in
  exists st',
    connect_to_peer K refusing fresh_state = Some (-25, st')
    /\ calls st'
       = calls fresh_state
         ++ [Call_connect addr; Call_create_cred 7;
             Call_get_available_modules;
             Call_send_blocking 7 (connect_message K refusing fresh_state)]
         ++ pre ++ [Call_recv_blocking 7 sizeof_int; Call_close 7]
    /\ sd (myserver st') = 7
    /\ connected st' = connected fresh_state
    /\ globals_pindex st' = globals_pindex fresh_state.
Proof.
  intros K addr pre.
  apply (connect_to_peer_refused K refusing fresh_state
           "job1:0:/tmp/pmix.sock" "job1" "0" "/tmp/pmix.sock" 7 pre);
    try reflexivity; try discriminate;
    try (right; exists {| tv_sec := 0; tv_usec := 0 |}, 16;
         now repeat split);
    vm_compute; intuition discriminate.
Defined.
